(** * Snowflake: 64-bit, roughly time-ordered identifiers

    A shallow embedding of [src/Snowflake.ts] and the properties of its
    identifier layout, its generator state machine and its singleton
    accessor.

    Modelling conventions.
    - A JavaScript [bigint] is a [Z]: [<<] is [Z.shiftl], [>>] is the
      arithmetic [Z.shiftr], [|] is [Z.lor] (two's complement on both
      sides), [BigInt.asUintN bits x] is [x mod 2 ^ bits].
    - A JavaScript [number] is modelled by the integer it holds; epoch
      offsets are integers of milliseconds.  The addition of the decoder
      (timestamp plus offset) is the addition of doubles, [JS.num_add],
      with its rounding beyond 2^53; the 32-bit [&] goes through
      [ToInt32], which is written out.  The subtraction
      [Date.now() - timeOffset] is taken exactly, which is what the
      doubles give as long as the difference stays within 2^53 in
      magnitude; an offset that is not an integer, on which [BigInt]
      throws, is outside the model.
    - An optional argument is an [option]; the test [!x] of the source is
      [falsy] (absent or zero).
    - [Date.now()] reads an oracle [now : nat -> Z]: its k-th call returns
      [now k].  The number of readings and of milliseconds slept so far
      is kept in a [Timer].
    - An [async] call yields an [outcome]: fulfilled, rejected, or still
      pending once the bound on the number of polls of the clock is used
      up. *)

From Stdlib Require Import ZArith Lia List Bool Sorted.
Import ListNotations.

Local Open Scope Z_scope.

(** ** Definitions *)

Module JS.

(** The three states of a promise.  [Pending] is what a caller sees
    while the awaited loop has not finished. *)
Inductive outcome (A : Type) : Type :=
| Fulfilled (a : A)
| Rejected
| Pending.
Arguments Fulfilled {A} a.
Arguments Rejected {A}.
Arguments Pending {A}.

(** [ToInt32] of an integer-valued number. *)
Definition ToInt32 (n : Z) : Z := (n + 2 ^ 31) mod 2 ^ 32 - 2 ^ 31.

(** [a & b] on numbers. *)
Definition num_and (a b : Z) : Z := Z.land (ToInt32 a) (ToInt32 b).

(** [BigInt.asUintN(bits, x)]. *)
Definition asUintN (bits x : Z) : Z := x mod 2 ^ bits.

(** [!x] for an optional number. *)
Definition falsy (x : option Z) : bool :=
  match x with
  | None => true
  | Some v => v =? 0
  end.

(** The double nearest to an integer, ties going to the even mantissa: a
    double keeps 53 significant bits, so every integer up to 2^53 in
    magnitude is a double, and a larger one is rounded at the bit that
    falls just below the 53 kept.  (Overflow to [Infinity], beyond
    2^1024, is not modelled.) *)
Definition to_double (z : Z) : Z :=
  let a := Z.abs z in
  if a <=? 2 ^ 53 then z
  else
    let e := Z.log2 a - 52 in
    let q := Z.shiftr a e in
    let r := a - Z.shiftl q e in
    let half := Z.shiftl 1 (e - 1) in
    let q' := if r <? half then q
              else if half <? r then q + 1
              else if Z.even q then q else q + 1 in
    Z.sgn z * Z.shiftl q' e.

(** [Number(x)] of a bigint. *)
Definition BigInt_to_number (x : Z) : Z := to_double x.

(** [a + b] on numbers that hold integers: the exact sum, rounded. *)
Definition num_add (a b : Z) : Z := to_double (a + b).

(** [a - b] on numbers that hold integers: the exact difference, rounded. *)
Definition num_sub (a b : Z) : Z := to_double (a - b).

End JS.

Module Snowflake.
Import JS.

Definition TOTAL_BITS : Z := 64.
Definition EPOCH_BITS : Z := 42.
Definition NODE_ID_BITS : Z := 12.
Definition SEQUENCE_BITS : Z := 10.

Definition maxNodeID : Z := Z.shiftl 1 NODE_ID_BITS - 1.
Definition maxSequence : Z := Z.shiftl 1 SEQUENCE_BITS - 1.

(** What the class takes from its surroundings: the node identifier
    hashed from host name and process id,
    [Number(FNV.compress(12, FNV.update(machineIdent).value()))], and
    the static [defaultTimeOffset], [new Date("01-01-2023").valueOf()],
    which depends on the time zone of the process. *)
Record Env : Type := mkEnv {
  machineNodeID : Z;
  defaultTimeOffset : Z
}.

(** [Partial<SnowflakeOpts>]. *)
Record SnowflakeOpts : Type := mkOpts {
  opt_nodeID : option Z;
  opt_timeOffset : option Z
}.

(** The fields of an instance. *)
Record t : Type := mk {
  nodeID : Z;
  timeOffset : Z;
  lastTimestamp : Z;
  lastSequence : Z
}.

(** The private constructor. *)
Definition new (env : Env) (nodeID timeOffset : option Z) : t :=
  let nodeID :=
    if falsy nodeID then machineNodeID env
    else match nodeID with Some n => n | None => 0 end in
  let timeOffset :=
    if falsy timeOffset then defaultTimeOffset env
    else match timeOffset with Some o => o | None => 0 end in
  {| timeOffset := timeOffset;
     nodeID := num_and nodeID maxNodeID;
     lastTimestamp := 0;
     lastSequence := -1 |}.

(** [opts?.nodeID] and [opts?.timeOffset]. *)
Definition opts_nodeID (opts : option SnowflakeOpts) : option Z :=
  match opts with Some o => opt_nodeID o | None => None end.
Definition opts_timeOffset (opts : option SnowflakeOpts) : option Z :=
  match opts with Some o => opt_timeOffset o | None => None end.

(** [Snowflake.get]: the static slot [instance] is threaded through;
    the result is the object the slot refers to afterwards. *)
Definition get (env : Env) (opts : option SnowflakeOpts)
           (instance : option t) : t * option t :=
  match instance with
  | Some s => (s, Some s)
  | None =>
      let s := new env (opts_nodeID opts) (opts_timeOffset opts) in
      (s, Some s)
  end.

(** The last expression of [genNewID]. *)
Definition compose (timestamp node sequence : Z) : Z :=
  let TIMESTAMP_LEFT_SHIFT := NODE_ID_BITS + SEQUENCE_BITS in
  let NODE_ID_SHIFT := SEQUENCE_BITS in
  Z.lor (Z.lor (Z.shiftl timestamp TIMESTAMP_LEFT_SHIFT)
               (Z.shiftl node NODE_ID_SHIFT))
        sequence.

(** Readings of the clock and milliseconds of sleep requested so far. *)
Record Timer : Type := mkTimer {
  reads : nat;
  slept : Z
}.

Section Generator.
(** The wall clock: the k-th reading of [Date.now()]. *)
Variable now : nat -> Z.

(** [BigInt(Date.now() - this.timeOffset)], for a reading and an offset
    that are integers whose difference is within 2^53 in magnitude, where
    the subtraction of doubles is exact and the conversion succeeds. *)
Definition readTimestamp (this : t) (tm : Timer) : Z * Timer :=
  (now (reads tm) - timeOffset this,
   {| reads := S (reads tm); slept := slept tm |}).

(** [this.sleep(1)], awaited. *)
Definition sleep (ms : Z) (tm : Timer) : Timer :=
  {| reads := reads tm; slept := slept tm + ms |}.

(** The [do ... while] of [genNewID], cut after [fuel] rounds. *)
Fixpoint waitNextTimestamp (fuel : nat) (this : t) (tm : Timer)
  : outcome (Z * Timer) :=
  match fuel with
  | O => Pending
  | S fuel' =>
      let tm := sleep 1 tm in
      let '(timestamp, tm) := readTimestamp this tm in
      if timestamp =? lastTimestamp this
      then waitNextTimestamp fuel' this tm
      else Fulfilled (timestamp, tm)
  end.

(** The two assignments to [this] and the returned value. *)
Definition finish (this : t) (timestamp sequence : Z) (tm : Timer)
  : outcome (Z * t * Timer) :=
  let this' := {| nodeID := nodeID this;
                  timeOffset := timeOffset this;
                  lastTimestamp := timestamp;
                  lastSequence := sequence |} in
  Fulfilled (compose timestamp (nodeID this) sequence, this', tm).

Definition genNewID (fuel : nat) (this : t) (tm : Timer)
  : outcome (Z * t * Timer) :=
  let '(timestamp, tm) := readTimestamp this tm in
  let sequence := lastSequence this in
  if timestamp =? lastTimestamp this then
    let sequence := sequence + 1 in
    if sequence >? maxSequence then
      match waitNextTimestamp fuel this tm with
      | Fulfilled (timestamp, tm) => finish this timestamp 0 tm
      | Rejected => Rejected
      | Pending => Pending
      end
    else finish this timestamp sequence tm
  else finish this timestamp 0 tm.

End Generator.

(** The static decoders. *)
Definition getTimestampFromID (env : Env) (id : Z) (timeOffset : option Z) : Z :=
  let timeOffset :=
    if falsy timeOffset then defaultTimeOffset env
    else match timeOffset with Some o => o | None => 0 end in
  let timestamp := asUintN EPOCH_BITS (Z.shiftr id (TOTAL_BITS - EPOCH_BITS)) in
  num_add (BigInt_to_number timestamp) timeOffset.

Definition getNodeIDFromID (id : Z) : Z :=
  asUintN NODE_ID_BITS
          (Z.shiftr (Z.shiftl id EPOCH_BITS) (EPOCH_BITS + SEQUENCE_BITS)).

Definition getSequenceFromID (id : Z) : Z :=
  let BITS := TOTAL_BITS - SEQUENCE_BITS in
  asUintN SEQUENCE_BITS (Z.shiftr (Z.shiftl id BITS) BITS).

End Snowflake.

(** A sequential client of the class.  The constructor is private, so the
    only instance a program can ever hold is the one in the static slot:
    every reference a client has aliases it, and the slot is the store. *)
Module Program.
Import JS.

Record World : Type := mkWorld {
  instance : option Snowflake.t;
  timer : Snowflake.Timer
}.

(** A process that has not touched the class yet. *)
Definition boot : World :=
  {| instance := None;
     timer := {| Snowflake.reads := 0; Snowflake.slept := 0 |} |}.

(** [Snowflake.get(opts)], or [await snowflake.genNewID()] on the
    reference some earlier [get] returned. *)
Inductive call : Type :=
| Get (opts : option Snowflake.SnowflakeOpts)
| GenNewID (fuel : nat).

Inductive event : Type :=
| Returned (s : Snowflake.t)
| Generated (id : Z)
| Threw
| Blocked.

Section Run.
Variable env : Snowflake.Env.
Variable now : nat -> Z.

(** A [GenNewID] before any [Get] has no receiver; no well-typed
    client contains one, and it is given the outcome of a call on
    [undefined]. *)
Definition step (c : call) (w : World) : event * World :=
  match c with
  | Get opts =>
      let '(s, slot) := Snowflake.get env opts (instance w) in
      (Returned s, {| instance := slot; timer := timer w |})
  | GenNewID fuel =>
      match instance w with
      | None => (Threw, w)
      | Some this =>
          match Snowflake.genNewID now fuel this (timer w) with
          | Fulfilled (id, this', tm) =>
              (Generated id, {| instance := Some this'; timer := tm |})
          | Rejected => (Threw, w)
          | Pending => (Blocked, w)
          end
      end
  end.

(** Calls are made one after the other; the client stops at the first
    call that throws or has not returned. *)
Fixpoint run (cs : list call) (w : World) : list event * World :=
  match cs with
  | [] => ([], w)
  | c :: cs' =>
      let '(e, w') := step c w in
      match e with
      | Threw | Blocked => ([e], w')
      | _ => let '(es, w'') := run cs' w' in (e :: es, w'')
      end
  end.

(** The worlds a sequential client can be in between two calls. *)
Inductive reachable : World -> Prop :=
| reach_boot : reachable boot
| reach_get : forall w opts,
    reachable w -> reachable (snd (step (Get opts) w))
| reach_gen : forall w fuel id w',
    reachable w ->
    step (GenNewID fuel) w = (Generated id, w') ->
    reachable w'.

End Run.

(** The identifiers a run handed out, in order. *)
Definition ids (es : list event) : list Z :=
  flat_map (fun e => match e with Generated id => [id] | _ => [] end) es.

(** The instances the [get] calls of a run returned, in order. *)
Definition returned (es : list event) : list Snowflake.t :=
  flat_map (fun e => match e with Returned s => [s] | _ => [] end) es.

End Program.

(** The vocabulary of the statements below: bit fields, the assumption
    on the clock, and the bounds a generator keeps. *)
Module Layout.

(** [width] bits of [id] from bit [lo] up, read as an unsigned integer. *)
Definition bits (lo width id : Z) : Z := Z.shiftr id lo mod 2 ^ width.

(** The wall clock never goes back. *)
Definition nondecreasing (now : nat -> Z) : Prop :=
  forall i j, (i <= j)%nat -> now i <= now j.

(** Bounds every instance made by the constructor keeps. *)
Definition well_formed (s : Snowflake.t) : Prop :=
  0 <= Snowflake.nodeID s <= 4095 /\ -1 <= Snowflake.lastSequence s <= 1023.

(** Once an instance has handed out an identifier, the timestamp it
    stored is not above any reading still to come. *)
Definition clock_ahead (now : nat -> Z) (s : Snowflake.t)
           (tm : Snowflake.Timer) : Prop :=
  0 <= Snowflake.lastSequence s ->
  forall j, (Snowflake.reads tm <= j)%nat ->
            Snowflake.lastTimestamp s <= now j - Snowflake.timeOffset s.

(** The identifier an instance handed out last, if any, is below [id]. *)
Definition above (s : Snowflake.t) (id : Z) : Prop :=
  0 <= Snowflake.lastSequence s ->
  Snowflake.compose (Snowflake.lastTimestamp s) (Snowflake.nodeID s)
                    (Snowflake.lastSequence s) < id.

(** Both, for the instance in the static slot of a world. *)
Definition world_ok (now : nat -> Z) (w : Program.World) : Prop :=
  match Program.instance w with
  | None => True
  | Some s => well_formed s /\ clock_ahead now s (Program.timer w)
  end.

Definition world_above (w : Program.World) (id : Z) : Prop :=
  match Program.instance w with
  | None => True
  | Some s => above s id
  end.

End Layout.

(** The midnight of 1 January 2023 in UTC, the value of
    [defaultTimeOffset] in a process whose time zone is UTC. *)
Definition utc_2023 : Z := 1672531200000.

(** [src/isMonotonic.ts]. *)
Module Monotonic.

(** [Array.prototype.every] on a dense array: the callback is given the
    element, its index and the array, left to right, until it answers
    false. *)
Fixpoint every_from {A : Type} (f : A -> nat -> list A -> bool)
         (arr : list A) (idx : nat) (rest : list A) : bool :=
  match rest with
  | [] => true
  | val :: rest' => f val idx arr && every_from f arr (S idx) rest'
  end.

Definition every {A : Type} (f : A -> nat -> list A -> bool) (arr : list A)
  : bool :=
  every_from f arr 0%nat arr.

(** The callback of [isMonotonic]: [val > arr[idx - 1]] for every index
    but 0; a comparison with [undefined] would be false. *)
Definition above_previous (val : Z) (idx : nat) (arr : list Z) : bool :=
  if (idx =? 0)%nat then true
  else match nth_error arr (idx - 1) with
       | Some prev => val >? prev
       | None => false
       end.

Definition isMonotonic (array : list Z) : bool := every above_previous array.

End Monotonic.

(** Calls to [genNewID] that overlap.  An [async] function runs without
    interruption up to its next [await]; the only [await] of [genNewID] is
    the one on [this.sleep(1)].  So a call is one uninterrupted run from
    its start to its first sleep or its return, followed by one
    uninterrupted run per wake-up, and between two such runs any other
    call may start or wake up.  A sleeping call keeps nothing of its own:
    its [timestamp] is read afresh after the sleep and its [sequence] is
    overwritten with 0 after the loop. *)
Module Concurrent.
Import Snowflake.

Inductive progress : Type :=
| Done (id : Z) (this' : t) (tm : Timer)
| Asleep (tm : Timer).

(** The two assignments to [this]. *)
Definition store (this : t) (timestamp sequence : Z) : t :=
  {| nodeID := nodeID this;
     timeOffset := timeOffset this;
     lastTimestamp := timestamp;
     lastSequence := sequence |}.

Section Steps.
Variable now : nat -> Z.

(** From the call to the first [await], or to the [return]. *)
Definition start (this : t) (tm : Timer) : progress :=
  let '(timestamp, tm) := readTimestamp now this tm in
  let sequence := lastSequence this in
  if timestamp =? lastTimestamp this then
    let sequence := sequence + 1 in
    if sequence >? maxSequence then Asleep (sleep 1 tm)
    else Done (compose timestamp (nodeID this) sequence)
              (store this timestamp sequence) tm
  else Done (compose timestamp (nodeID this) 0) (store this timestamp 0) tm.

(** From a wake-up to the next [await], or to the [return].  The loop
    test reads [this.lastTimestamp] as it is at that moment. *)
Definition resume (this : t) (tm : Timer) : progress :=
  let '(timestamp, tm) := readTimestamp now this tm in
  if timestamp =? lastTimestamp this then Asleep (sleep 1 tm)
  else Done (compose timestamp (nodeID this) 0) (store this timestamp 0) tm.

(** The one instance, the clock, the calls made so far (numbered in the
    order they were made), those asleep, and the identifiers returned,
    the latest first, each with the number of its call. *)
Record Sys : Type := mkSys {
  self : t;
  clock : Timer;
  next : nat;
  asleep : list nat;
  results : list (nat * Z)
}.

Inductive action : Type :=
| Launch
| Wake (c : nat).

Definition is_asleep (c : nat) (s : Sys) : bool :=
  existsb (Nat.eqb c) (asleep s).

(** Waking a call that is not asleep is not something the event loop
    does; such an action changes nothing. *)
Definition act (a : action) (s : Sys) : Sys :=
  match a with
  | Launch =>
      match start (self s) (clock s) with
      | Done id this' tm =>
          {| self := this'; clock := tm; next := S (next s);
             asleep := asleep s; results := (next s, id) :: results s |}
      | Asleep tm =>
          {| self := self s; clock := tm; next := S (next s);
             asleep := next s :: asleep s; results := results s |}
      end
  | Wake c =>
      if is_asleep c s then
        match resume (self s) (clock s) with
        | Done id this' tm =>
            {| self := this'; clock := tm; next := next s;
               asleep := filter (fun d => negb (Nat.eqb c d)) (asleep s);
               results := (c, id) :: results s |}
        | Asleep tm =>
            {| self := self s; clock := tm; next := next s;
               asleep := asleep s; results := results s |}
        end
      else s
  end.

Definition exec (acts : list action) (s : Sys) : Sys :=
  fold_left (fun s a => act a s) acts s.

(** What holds of the identifiers returned so far, whatever the
    interleaving: the latest one is the largest, and none is above the
    identifier the stored fields compose to. *)
Definition ids_ok (s : Sys) : Prop :=
  Layout.well_formed (self s)
  /\ Layout.clock_ahead now (self s) (clock s)
  /\ StronglySorted Z.gt (map snd (results s))
  /\ Forall (fun id =>
               0 <= lastSequence (self s)
               /\ id <= compose (lastTimestamp (self s)) (nodeID (self s))
                                (lastSequence (self s)))
            (map snd (results s)).

(** The numbering of the calls: a call is asleep or has returned, never
    both, and it returns once. *)
Definition calls_ok (s : Sys) : Prop :=
  Forall (fun c => (c < next s)%nat) (asleep s)
  /\ Forall (fun c => (c < next s)%nat) (map fst (results s))
  /\ NoDup (map fst (results s))
  /\ (forall c, In c (asleep s) -> ~ In c (map fst (results s))).

End Steps.

(** A generator on which no call has been made. *)
Definition idle (this : t) (tm : Timer) : Sys :=
  {| self := this; clock := tm; next := 0; asleep := []; results := [] |}.

(** What [Promise.all] would put at index [c]. *)
Definition result_of (c : nat) (s : Sys) : option Z :=
  match find (fun r => Nat.eqb c (fst r)) (results s) with
  | Some r => Some (snd r)
  | None => None
  end.

End Concurrent.

(** The earlier version of the class kept in the repository
    ([src/unnamed/part_001]).  Its generator keeps [lastTime] and
    [sequence], wraps the sequence with [& maxSequence], and on a wrap
    sleeps once without reading the clock again.  Each call is awaited
    before the next one is made. *)
Module Legacy.
Import JS.

Record t : Type := mk {
  nodeID : Z;
  timeOffset : Z;
  lastTime : Z;
  sequence : Z
}.

Definition new (env : Snowflake.Env) (nodeID timeOffset : option Z) : t :=
  let nodeID :=
    if falsy nodeID then Snowflake.machineNodeID env
    else match nodeID with Some n => n | None => 0 end in
  let timeOffset :=
    if falsy timeOffset then Snowflake.defaultTimeOffset env
    else match timeOffset with Some o => o | None => 0 end in
  {| timeOffset := timeOffset;
     nodeID := num_and nodeID Snowflake.maxNodeID;
     lastTime := 0;
     sequence := 0 |}.

Section Generator.
Variable now : nat -> Z.

Definition genNewID (this : t) (tm : Snowflake.Timer)
  : Z * t * Snowflake.Timer :=
  let now_ := now (Snowflake.reads tm) - timeOffset this in
  let tm := {| Snowflake.reads := S (Snowflake.reads tm);
               Snowflake.slept := Snowflake.slept tm |} in
  let '(sequence, tm) :=
    if lastTime this =? now_ then
      let sequence := num_and (sequence this + 1) Snowflake.maxSequence in
      if sequence =? 0 then (sequence, Snowflake.sleep 1 tm)
      else (sequence, tm)
    else (0, tm) in
  let id := Z.shiftl now_ (Snowflake.TOTAL_BITS - Snowflake.EPOCH_BITS) in
  let id := Z.lor id (Z.shiftl (nodeID this)
                               (Snowflake.TOTAL_BITS - Snowflake.EPOCH_BITS
                                - Snowflake.NODE_ID_BITS)) in
  let id := Z.lor id sequence in
  (id,
   {| nodeID := nodeID this; timeOffset := timeOffset this;
      lastTime := now_; sequence := sequence |},
   tm).

(** The identifiers of [n] calls made one after the other. *)
Fixpoint gens (n : nat) (this : t) (tm : Snowflake.Timer) : list Z :=
  match n with
  | O => []
  | S n' =>
      let '(id, this', tm') := genNewID this tm in
      id :: gens n' this' tm'
  end.

End Generator.

End Legacy.

(** Telling the calls of a client apart. *)
Module Calls.

Definition is_GenNewID (c : Program.call) : bool :=
  match c with
  | Program.GenNewID _ => true
  | Program.Get _ => false
  end.

End Calls.

(** The test of [gen monotonic IDs] that awaits each call before it makes
    the next one. *)
Module Test.

Inductive verdict : Type :=
| Passed
| Failed
| Hung.

(** [assertGreaterThanOrEqual]: true when it does not throw. *)
Definition assertGreaterThanOrEqual (actual expected : Z) : bool :=
  negb (actual <? expected).

(** [new Set(ids).size]. *)
Definition Set_size (ids : list Z) : nat := length (nodup Z.eq_dec ids).

Definition is_blocked (e : Program.event) : bool :=
  match e with Program.Blocked => true | _ => false end.

Definition is_threw (e : Program.event) : bool :=
  match e with Program.Threw => true | _ => false end.

(** The body of the test; [fuel i] bounds the polls of the i-th call. *)
Definition gen_monotonic_IDs (env : Snowflake.Env) (now : nat -> Z)
           (fuel : nat -> nat) : verdict :=
  let calls :=
    Program.Get (Some (Snowflake.mkOpts (Some 4090) None))
    :: map (fun i => Program.GenNewID (fuel i)) (seq 0 (Z.to_nat 50000)) in
  let es := fst (Program.run env now calls Program.boot) in
  if existsb is_blocked es then Hung
  else if existsb is_threw es then Failed
  else
    let ids := Program.ids es in
    if assertGreaterThanOrEqual (Z.of_nat (length ids)) 50000
       && (Set_size ids =? length ids)%nat
       && Bool.eqb (Monotonic.isMonotonic ids) true
    then Passed
    else Failed.

End Test.

(** Concrete surroundings used in the examples below. *)
Module Fixtures.

(** A host hashed to node 7, running in UTC. *)
Definition env0 : Snowflake.Env := Snowflake.mkEnv 7 utc_2023.

(** No reading made, no sleep requested. *)
Definition tm0 : Snowflake.Timer := Snowflake.mkTimer 0 0.

(** A clock that shows [v] at every reading. *)
Definition clock_at (v : Z) : nat -> Z := fun _ => v.

(** A clock that advances by one millisecond every [hold] readings. *)
Definition slow_clock (hold : nat) (start : Z) : nat -> Z :=
  fun k => start + Z.of_nat (k / hold).

(** An instance that has handed out sequence 1023 at timestamp 100. *)
Definition exhausted : Snowflake.t := Snowflake.mk 4090 1 100 1023.

End Fixtures.

(** ** Checks on concrete inputs *)

(** The identifier worked out in the header comment of the source. *)
Example header_comment_id :
  Snowflake.compose 1597403879758 4090 567 = 6699997482488687159.
Proof. reflexivity. Qed.

Example header_comment_decoded :
  Snowflake.getTimestampFromID (Snowflake.mkEnv 7 utc_2023) 6699997482488687159 (Some 1)
    = 1597403879758 + 1
  /\ Snowflake.getNodeIDFromID 6699997482488687159 = 4090
  /\ Snowflake.getSequenceFromID 6699997482488687159 = 567.
Proof. repeat split; reflexivity. Qed.

(** ** The arithmetic of the layout *)

Section BitFacts.

Lemma land_mul_pow2_small (a b k : Z) :
  0 <= k -> 0 <= b < 2 ^ k -> Z.land (a * 2 ^ k) b = 0.
Proof.
  intros Hk [Hb0 Hb]. apply Z.bits_inj'. intros i Hi.
  rewrite Z.land_spec, Z.bits_0.
  destruct (Z.lt_ge_cases i k) as [Hlt | Hge].
  - rewrite Z.mul_pow2_bits_low by lia. reflexivity.
  - assert (Hbit : Z.testbit b i = false).
    { destruct (Z.eq_dec b 0) as [-> | Hnz]; [apply Z.bits_0 |].
      apply Z.bits_above_log2; [lia |].
      apply Z.log2_lt_pow2; [lia |].
      apply Z.lt_le_trans with (2 ^ k); [lia |].
      apply Z.pow_le_mono_r; lia. }
    rewrite Hbit. apply andb_false_r.
Qed.

Lemma lor_shiftl_small (a b k : Z) :
  0 <= k -> 0 <= b < 2 ^ k -> Z.lor (Z.shiftl a k) b = a * 2 ^ k + b.
Proof.
  intros Hk Hb. rewrite Z.shiftl_mul_pow2 by assumption.
  rewrite <- Z.add_lor_land, (land_mul_pow2_small a b k) by assumption.
  lia.
Qed.

Lemma ToInt32_low12 (n : Z) : Z.land (JS.ToInt32 n) 4095 = n mod 4096.
Proof.
  unfold JS.ToInt32.
  change 4095 with (Z.ones 12). rewrite Z.land_ones by lia.
  change (2 ^ 12) with 4096. change (2 ^ 31) with 2147483648.
  change (2 ^ 32) with 4294967296.
  rewrite (Z.mod_eq (n + 2147483648) 4294967296) by lia.
  set (q := (n + 2147483648) / 4294967296).
  replace (n + 2147483648 - 4294967296 * q - 2147483648)
    with (n + (- (1048576 * q)) * 4096) by lia.
  apply Z_mod_plus_full.
Qed.

End BitFacts.

Section ComposeFacts.
Import Snowflake.

Variables timestamp node sequence : Z.
Hypothesis node_range : 0 <= node <= 4095.
Hypothesis sequence_range : 0 <= sequence <= 1023.

Lemma compose_arith :
  compose timestamp node sequence
  = timestamp * 4194304 + node * 1024 + sequence.
Proof.
  unfold compose, NODE_ID_BITS, SEQUENCE_BITS.
  change (12 + 10) with 22.
  rewrite (Z.shiftl_mul_pow2 node 10) by lia.
  rewrite (lor_shiftl_small timestamp (node * 2 ^ 10) 22) by lia.
  replace (timestamp * 2 ^ 22 + node * 2 ^ 10)
    with (Z.shiftl (timestamp * 2 ^ 12 + node) 10)
    by (rewrite Z.shiftl_mul_pow2 by lia; lia).
  rewrite lor_shiftl_small by lia. lia.
Qed.

Lemma compose_shiftr_22 :
  Z.shiftr (compose timestamp node sequence) 22 = timestamp.
Proof.
  rewrite compose_arith, Z.shiftr_div_pow2 by lia.
  change (2 ^ 22) with 4194304.
  symmetry. apply Z.div_unique with (r := node * 1024 + sequence); lia.
Qed.

Lemma compose_shiftr_10 :
  Z.shiftr (compose timestamp node sequence) 10 = timestamp * 4096 + node.
Proof.
  rewrite compose_arith, Z.shiftr_div_pow2 by lia.
  change (2 ^ 10) with 1024.
  symmetry. apply Z.div_unique with (r := sequence); lia.
Qed.

Lemma getNodeIDFromID_compose :
  getNodeIDFromID (compose timestamp node sequence) = node.
Proof.
  unfold getNodeIDFromID, JS.asUintN, EPOCH_BITS, SEQUENCE_BITS, NODE_ID_BITS.
  rewrite Z.shiftr_shiftl_r by lia.
  change (42 + 10 - 42) with 10. rewrite compose_shiftr_10.
  change (2 ^ 12) with 4096.
  symmetry. apply Z.mod_unique_pos with (q := timestamp); lia.
Qed.

Lemma getSequenceFromID_compose :
  getSequenceFromID (compose timestamp node sequence) = sequence.
Proof.
  unfold getSequenceFromID, JS.asUintN, TOTAL_BITS, SEQUENCE_BITS.
  rewrite Z.shiftr_shiftl_l by lia.
  change (64 - 10 - (64 - 10)) with 0. rewrite Z.shiftl_0_r, compose_arith.
  change (2 ^ 10) with 1024.
  symmetry. apply Z.mod_unique_pos with (q := timestamp * 4096 + node); lia.
Qed.

Lemma compose_negative : timestamp < 0 -> compose timestamp node sequence < 0.
Proof. intros Hneg. rewrite compose_arith. lia. Qed.

Lemma compose_range :
  0 <= timestamp < 2 ^ 42 -> 0 <= compose timestamp node sequence < 2 ^ 64.
Proof.
  intros Ht. rewrite compose_arith.
  change (2 ^ 42) with 4398046511104 in Ht.
  change (2 ^ 64) with 18446744073709551616. lia.
Qed.

End ComposeFacts.

(** ** The constructor and the accessor *)

Section ConstructorFacts.
Import Snowflake.

Lemma num_and_maxNodeID (x : Z) : JS.num_and x maxNodeID = x mod 4096.
Proof.
  unfold JS.num_and. change (JS.ToInt32 maxNodeID) with 4095.
  apply ToInt32_low12.
Qed.

Lemma new_well_formed (env : Env) (n o : option Z) :
  Layout.well_formed (new env n o).
Proof.
  unfold Layout.well_formed, new; cbn [nodeID lastSequence].
  rewrite num_and_maxNodeID.
  pose proof (Z.mod_pos_bound
                (if JS.falsy n then machineNodeID env
                 else match n with Some n0 => n0 | None => 0 end)
                4096 ltac:(lia)).
  lia.
Qed.

Lemma get_existing (env : Env) (opts : option SnowflakeOpts) (s : t) :
  get env opts (Some s) = (s, Some s).
Proof. reflexivity. Qed.

End ConstructorFacts.

(** C6, as amended.  A supplied node identifier other than zero is never
    rejected: the accessor builds the instance, and the stored [nodeID] is
    the supplied value masked to its low 12 bits, hence within 0..4095. *)
Theorem constructor_masks_nonzero_nodeID
        (env : Snowflake.Env) (n : Z) (o : option Z) :
  n <> 0 ->
  let s := Snowflake.new env (Some n) o in
  Snowflake.get env (Some (Snowflake.mkOpts (Some n) o)) None = (s, Some s)
  /\ Snowflake.nodeID s = Z.land n 4095
  /\ 0 <= Snowflake.nodeID s <= 4095.
Proof.
  intros Hn s. split; [reflexivity |].
  assert (E : Snowflake.nodeID s = n mod 4096).
  { unfold s, Snowflake.new; cbn [Snowflake.nodeID JS.falsy].
    destruct (Z.eqb_spec n 0) as [H0 | _]; [contradiction |].
    apply num_and_maxNodeID. }
  rewrite E. change 4095 with (Z.ones 12) at 1. rewrite Z.land_ones by lia.
  change (2 ^ 12) with 4096.
  pose proof (Z.mod_pos_bound n 4096 ltac:(lia)). split; [reflexivity | lia].
Qed.

Lemma constructor_masks_nonzero_nodeID_witness :
  5000 <> 0
  /\ let s := Snowflake.new (Snowflake.mkEnv 7 utc_2023) (Some 5000) None in
     Snowflake.get (Snowflake.mkEnv 7 utc_2023)
                   (Some (Snowflake.mkOpts (Some 5000) None)) None = (s, Some s)
     /\ Snowflake.nodeID s = Z.land 5000 4095
     /\ 0 <= Snowflake.nodeID s <= 4095.
Proof.
  split; [lia | apply constructor_masks_nonzero_nodeID; lia].
Defined.

(** C6, as stated, fails on a supplied zero: on a host whose hashed
    identifier is 7 the stored [nodeID] is 7, not [0 & 0xFFF]. *)
Lemma constructor_zero_nodeID_not_masked :
  Snowflake.nodeID (Snowflake.new (Snowflake.mkEnv 7 utc_2023) (Some 0) None) = 7
  /\ Snowflake.nodeID (Snowflake.new (Snowflake.mkEnv 7 utc_2023) (Some 0) None)
     <> Z.land 0 4095.
Proof. split; [reflexivity | vm_compute; discriminate]. Qed.

(** C9.  A zero passed to [Snowflake.get] as [nodeID] or as [timeOffset]
    is treated as absent: the instance gets the hashed machine identifier
    (masked like any node identifier), respectively the default epoch. *)
Theorem get_ignores_zero_options
        (env : Snowflake.Env) (n o : option Z) :
  Snowflake.nodeID
    (fst (Snowflake.get env (Some (Snowflake.mkOpts (Some 0) o)) None))
  = JS.num_and (Snowflake.machineNodeID env) Snowflake.maxNodeID
  /\ Snowflake.nodeID
       (fst (Snowflake.get env (Some (Snowflake.mkOpts (Some 0) o)) None))
     = Snowflake.nodeID
         (fst (Snowflake.get env (Some (Snowflake.mkOpts None o)) None))
  /\ Snowflake.timeOffset
       (fst (Snowflake.get env (Some (Snowflake.mkOpts n (Some 0))) None))
     = Snowflake.defaultTimeOffset env
  /\ Snowflake.timeOffset
       (fst (Snowflake.get env (Some (Snowflake.mkOpts n (Some 0))) None))
     = Snowflake.timeOffset
         (fst (Snowflake.get env (Some (Snowflake.mkOpts n None)) None)).
Proof. repeat split. Qed.

(** ** Encoding and decoding *)

Section DoubleFacts.
Import Snowflake.

Lemma to_double_exact (z : Z) : Z.abs z <= 2 ^ 53 -> JS.to_double z = z.
Proof.
  intros Hz. unfold JS.to_double. cbv zeta.
  destruct (Z.leb_spec (Z.abs z) (2 ^ 53)) as [_ | Hgt]; [reflexivity |].
  exfalso. apply (Z.lt_irrefl (2 ^ 53)).
  apply Z.lt_le_trans with (Z.abs z); assumption.
Qed.

(** Within 2^53 the timestamp a call computes is the difference the
    doubles give. *)
Lemma readTimestamp_as_doubles (now : nat -> Z) (this : t) (tm : Timer) :
  Z.abs (now (reads tm) - timeOffset this) <= 2 ^ 53 ->
  fst (readTimestamp now this tm) = JS.num_sub (now (reads tm)) (timeOffset this).
Proof.
  intros Hsafe. unfold readTimestamp, JS.num_sub. cbn [fst].
  symmetry. apply to_double_exact. exact Hsafe.
Qed.

(** The decoder of the timestamp: the 42-bit field, which is a double as
    it stands, plus the offset in use, added as doubles. *)
Lemma getTimestampFromID_double (env : Env) (id : Z) (o : option Z) :
  getTimestampFromID env id o
  = JS.to_double
      (Z.shiftr id 22 mod 2 ^ 42
       + (if JS.falsy o then defaultTimeOffset env
          else match o with Some e => e | None => 0 end)).
Proof.
  unfold getTimestampFromID, JS.num_add, JS.BigInt_to_number, JS.asUintN,
    TOTAL_BITS, EPOCH_BITS.
  change (64 - 42) with 22.
  pose proof (Z.mod_pos_bound (Z.shiftr id 22) (2 ^ 42) ltac:(lia)) as Hfield.
  rewrite (to_double_exact (Z.shiftr id 22 mod 2 ^ 42)); [reflexivity |].
  change (2 ^ 42) with 4398046511104 in *.
  change (2 ^ 53) with 9007199254740992. lia.
Qed.

Lemma getTimestampFromID_compose (env : Env) (t n s : Z) (o : option Z) :
  0 <= n <= 4095 -> 0 <= s <= 1023 ->
  getTimestampFromID env (compose t n s) o
  = JS.to_double
      (t mod 2 ^ 42
       + (if JS.falsy o then defaultTimeOffset env
          else match o with Some e => e | None => 0 end)).
Proof.
  intros Hn Hs. rewrite getTimestampFromID_double, compose_shiftr_22 by assumption.
  reflexivity.
Qed.

End DoubleFacts.

(** C4, as amended.  For a timestamp below 2^42, a node identifier in
    0..4095 and a sequence in 0..1023, the decoders give back the node
    identifier and the sequence, and the timestamp plus the epoch offset
    handed to the decoder, provided the offset is not zero and the sum is
    at most 2^53 in magnitude, so that the addition of doubles is exact;
    an offset of zero, like an absent one, stands for the default
    epoch. *)
Theorem decode_compose
        (env : Snowflake.Env) (t n s e : Z) :
  0 <= t < 2 ^ 42 -> 0 <= n <= 4095 -> 0 <= s <= 1023 ->
  let id := Snowflake.compose t n s in
  (e <> 0 -> Z.abs (t + e) <= 2 ^ 53 ->
   Snowflake.getTimestampFromID env id (Some e) = t + e)
  /\ (Z.abs (t + Snowflake.defaultTimeOffset env) <= 2 ^ 53 ->
      Snowflake.getTimestampFromID env id (Some 0)
        = t + Snowflake.defaultTimeOffset env
      /\ Snowflake.getTimestampFromID env id None
         = t + Snowflake.defaultTimeOffset env)
  /\ Snowflake.getNodeIDFromID id = n
  /\ Snowflake.getSequenceFromID id = s.
Proof.
  intros Ht Hn Hs id. unfold id.
  assert (Hmod : t mod 2 ^ 42 = t) by (apply Z.mod_small; assumption).
  split.
  { intros He Hsum. rewrite getTimestampFromID_compose by assumption.
    cbn [JS.falsy]. destruct (Z.eqb_spec e 0) as [? | _]; [contradiction |].
    rewrite Hmod. apply to_double_exact. exact Hsum. }
  split.
  { intros Hsum. rewrite !getTimestampFromID_compose by assumption.
    cbn [JS.falsy Z.eqb]. rewrite Hmod.
    split; apply to_double_exact; exact Hsum. }
  split.
  - apply getNodeIDFromID_compose; assumption.
  - apply getSequenceFromID_compose; assumption.
Qed.

Lemma decode_compose_witness :
  0 <= 0 < 2 ^ 42 /\ 0 <= 4095 <= 4095 /\ 0 <= 1023 <= 1023
  /\ 1577836800000 <> 0 /\ Z.abs (0 + 1577836800000) <= 2 ^ 53
  /\ Z.abs (0 + utc_2023) <= 2 ^ 53
  /\ let id := Snowflake.compose 0 4095 1023 in
     Snowflake.getTimestampFromID (Snowflake.mkEnv 7 utc_2023) id (Some 1577836800000)
       = 0 + 1577836800000
     /\ Snowflake.getTimestampFromID (Snowflake.mkEnv 7 utc_2023) id (Some 0)
        = 0 + utc_2023
     /\ Snowflake.getTimestampFromID (Snowflake.mkEnv 7 utc_2023) id None
        = 0 + utc_2023
     /\ Snowflake.getNodeIDFromID id = 4095
     /\ Snowflake.getSequenceFromID id = 1023.
Proof.
  assert (He : 1577836800000 <> 0) by lia.
  assert (Hsum : Z.abs (0 + 1577836800000) <= 2 ^ 53) by (cbn; lia).
  assert (Hdef : Z.abs (0 + utc_2023) <= 2 ^ 53) by (cbn; lia).
  split; [lia |]. split; [lia |]. split; [lia |].
  split; [exact He |]. split; [exact Hsum |]. split; [exact Hdef |].
  destruct (decode_compose (Snowflake.mkEnv 7 utc_2023) 0 4095 1023 1577836800000
              ltac:(lia) ltac:(lia) ltac:(lia))
    as (Hsome & Hzero & Hnode & Hseq).
  split; [exact (Hsome He Hsum) |].
  split; [exact (proj1 (Hzero Hdef)) |].
  split; [exact (proj2 (Hzero Hdef)) |].
  split; [exact Hnode | exact Hseq].
Defined.

(** C4, as stated, fails for the epoch offset 0, where the decoder adds
    the default epoch and not 0, and for an offset that takes the sum
    beyond 2^53, where the addition of doubles rounds: the timestamp 2
    with the offset 2^53 - 1 decodes to 2^53. *)
Lemma decode_timestamp_zero_offset :
  (Snowflake.getTimestampFromID (Snowflake.mkEnv 7 utc_2023)
                                (Snowflake.compose 5 0 0) (Some 0)
   = 5 + utc_2023
   /\ Snowflake.getTimestampFromID (Snowflake.mkEnv 7 utc_2023)
                                   (Snowflake.compose 5 0 0) (Some 0)
      <> 5 + 0)
  /\ (Snowflake.getTimestampFromID (Snowflake.mkEnv 7 utc_2023)
                                   (Snowflake.compose 2 0 0) (Some (2 ^ 53 - 1))
      = 2 ^ 53
      /\ Snowflake.getTimestampFromID (Snowflake.mkEnv 7 utc_2023)
                                      (Snowflake.compose 2 0 0) (Some (2 ^ 53 - 1))
         <> 2 + (2 ^ 53 - 1)).
Proof.
  split; (split; [reflexivity | vm_compute; discriminate]).
Qed.

(** ** The generator *)

Section GeneratorFacts.
Import JS Snowflake.

Variable now : nat -> Z.

(** The waiting loop polls the clock until the timestamp differs from
    the stored one; [k] counts the polls that still agreed. *)
Lemma wait_fulfilled (fuel : nat) (this : t) :
  forall (tm : Timer) (ts : Z) (tm' : Timer),
    waitNextTimestamp now fuel this tm = Fulfilled (ts, tm') ->
    exists k : nat,
      (k < fuel)%nat
      /\ ts = now (reads tm + k)%nat - timeOffset this
      /\ ts <> lastTimestamp this
      /\ reads tm' = S (reads tm + k)
      /\ slept tm' = slept tm + Z.of_nat (S k)
      /\ forall j, (j < k)%nat ->
                   now (reads tm + j)%nat - timeOffset this = lastTimestamp this.
Proof.
  induction fuel as [| fuel IH]; intros tm ts tm' H; [discriminate H |].
  cbn [waitNextTimestamp readTimestamp sleep reads slept] in H.
  destruct (Z.eqb_spec (now (reads tm) - timeOffset this) (lastTimestamp this))
    as [Heq | Hne].
  - apply IH in H. destruct H as (k & Hk & Hts & Hd & Hr & Hs & Hsame).
    cbn [reads slept] in *. exists (S k).
    replace (reads tm + S k)%nat with (S (reads tm) + k)%nat by lia.
    repeat split; try assumption; try lia.
    intros j Hj. destruct j as [| j].
    + rewrite Nat.add_0_r. exact Heq.
    + replace (reads tm + S j)%nat with (S (reads tm) + j)%nat by lia.
      apply Hsame. lia.
  - injection H as <- <-. exists 0%nat. cbn [reads slept].
    rewrite Nat.add_0_r. repeat split; try assumption; try lia.
Qed.

Lemma wait_not_rejected (fuel : nat) (this : t) :
  forall tm : Timer, waitNextTimestamp now fuel this tm <> Rejected.
Proof.
  induction fuel as [| fuel IH]; intros tm; [discriminate |].
  cbn [waitNextTimestamp readTimestamp sleep reads slept].
  destruct (_ =? _); [apply IH | discriminate].
Qed.

(** The loop is still running as long as the clock has not moved, and
    ends with the first reading that differs. *)
Lemma wait_runs (this : t) (k : nat) :
  forall (fuel : nat) (tm : Timer),
    (forall j, (j < k)%nat ->
               now (reads tm + j)%nat - timeOffset this = lastTimestamp this) ->
    ((fuel <= k)%nat -> waitNextTimestamp now fuel this tm = Pending)
    /\ ((k < fuel)%nat ->
        now (reads tm + k)%nat - timeOffset this <> lastTimestamp this ->
        waitNextTimestamp now fuel this tm
        = Fulfilled (now (reads tm + k)%nat - timeOffset this,
                     {| reads := S (reads tm + k);
                        slept := slept tm + Z.of_nat (S k) |})).
Proof.
  induction k as [| k IH]; intros fuel tm Hsame.
  - split.
    + intros Hle. replace fuel with 0%nat by lia. reflexivity.
    + intros Hlt Hne. destruct fuel as [| fuel]; [lia |].
      cbn [waitNextTimestamp readTimestamp sleep reads slept].
      rewrite Nat.add_0_r in *.
      destruct (Z.eqb_spec (now (reads tm) - timeOffset this) (lastTimestamp this));
        [contradiction | reflexivity].
  - assert (H0 : now (reads tm) - timeOffset this = lastTimestamp this).
    { rewrite <- (Nat.add_0_r (reads tm)). apply Hsame. lia. }
    destruct fuel as [| fuel].
    + split; [reflexivity | lia].
    + cbn [waitNextTimestamp readTimestamp sleep reads slept].
      rewrite H0, Z.eqb_refl.
      specialize (IH fuel {| reads := S (reads tm); slept := slept tm + 1 |}).
      cbn [reads slept] in IH.
      replace (reads tm + S k)%nat with (S (reads tm) + k)%nat by lia.
      replace (slept tm + Z.of_nat (S (S k)))
        with (slept tm + 1 + Z.of_nat (S k)) by lia.
      destruct IH as [IHp IHf].
      { intros j Hj.
        replace (S (reads tm) + j)%nat with (reads tm + S j)%nat by lia.
        apply Hsame. lia. }
      split; intros; [apply IHp | apply IHf]; try assumption; lia.
Qed.

(** The loop ends as soon as some later reading differs from the stored
    timestamp: from then on more fuel changes nothing. *)
Lemma wait_terminates (this : t) (j : nat) :
  forall tm : Timer,
    now (reads tm + j)%nat - timeOffset this <> lastTimestamp this ->
    exists ts tm',
      forall fuel, (j < fuel)%nat ->
                   waitNextTimestamp now fuel this tm = Fulfilled (ts, tm').
Proof.
  induction j as [| j IH]; intros tm Hdiff.
  - rewrite Nat.add_0_r in Hdiff.
    exists (now (reads tm) - timeOffset this),
           {| reads := S (reads tm); slept := slept tm + 1 |}.
    intros [| fuel] Hfuel; [lia |].
    cbn [waitNextTimestamp readTimestamp sleep reads slept].
    destruct (Z.eqb_spec (now (reads tm) - timeOffset this) (lastTimestamp this));
      [contradiction | reflexivity].
  - destruct (Z.eqb_spec (now (reads tm) - timeOffset this) (lastTimestamp this))
      as [Heq | Hne].
    + destruct (IH {| reads := S (reads tm); slept := slept tm + 1 |})
        as (ts & tm' & Hrun).
      { cbn [reads]. replace (S (reads tm) + j)%nat with (reads tm + S j)%nat by lia.
        exact Hdiff. }
      exists ts, tm'. intros [| fuel] Hfuel; [lia |].
      cbn [waitNextTimestamp readTimestamp sleep reads slept].
      rewrite Heq, Z.eqb_refl. apply Hrun. lia.
    + exists (now (reads tm) - timeOffset this),
             {| reads := S (reads tm); slept := slept tm + 1 |}.
      intros [| fuel] Hfuel; [lia |].
      cbn [waitNextTimestamp readTimestamp sleep reads slept].
      destruct (Z.eqb_spec (now (reads tm) - timeOffset this) (lastTimestamp this));
        [contradiction | reflexivity].
Qed.

(** So a call returns whenever the clock moves on at some reading after
    the first one. *)
Lemma genNewID_returns (this : t) (tm : Timer) (j : nat) :
  now (S (reads tm) + j)%nat - timeOffset this <> lastTimestamp this ->
  exists id this' tm',
    forall fuel, (j < fuel)%nat ->
                 genNewID now fuel this tm = Fulfilled (id, this', tm').
Proof.
  intros Hdiff.
  destruct (wait_terminates this j {| reads := S (reads tm); slept := slept tm |}
              Hdiff) as (ts & tm1 & Hrun).
  unfold genNewID, finish; cbn [readTimestamp].
  destruct (_ =? _); [| eexists _, _, _; intros; reflexivity].
  destruct (_ >? _); [| eexists _, _, _; intros; reflexivity].
  eexists _, _, _. intros fuel Hfuel. rewrite (Hrun fuel Hfuel). reflexivity.
Qed.

Lemma genNewID_not_rejected (fuel : nat) (this : t) (tm : Timer) :
  genNewID now fuel this tm <> Rejected.
Proof.
  unfold genNewID, finish; cbn [readTimestamp].
  destruct (_ =? _); [| discriminate].
  destruct (_ >? _); [| discriminate].
  pose proof (wait_not_rejected fuel this
                {| reads := S (reads tm); slept := slept tm |}) as Hw.
  destruct (waitNextTimestamp _ _ _ _) as [[ts tm1] | |];
    [discriminate | contradiction | discriminate].
Qed.

(** What a completed call did: the identifier is composed from the
    fields just stored, the configuration is untouched, and either the
    timestamp was the stored one and the sequence went up by one, or
    the timestamp is a new one and the sequence restarts at 0. *)
Lemma genNewID_fulfilled (fuel : nat) (this : t) (tm : Timer)
      (id : Z) (this' : t) (tm' : Timer) :
  genNewID now fuel this tm = Fulfilled (id, this', tm') ->
  id = compose (lastTimestamp this') (nodeID this) (lastSequence this')
  /\ nodeID this' = nodeID this
  /\ timeOffset this' = timeOffset this
  /\ exists k : nat,
       lastTimestamp this' = now (reads tm + k)%nat - timeOffset this
       /\ reads tm' = S (reads tm + k)
       /\ ((k = 0%nat
            /\ lastTimestamp this' = lastTimestamp this
            /\ lastSequence this' = lastSequence this + 1
            /\ lastSequence this + 1 <= 1023)
           \/ (lastTimestamp this' <> lastTimestamp this
               /\ lastSequence this' = 0)).
Proof.
  unfold genNewID, finish; cbn [readTimestamp].
  destruct (Z.eqb_spec (now (reads tm) - timeOffset this) (lastTimestamp this))
    as [Heq | Hne].
  - destruct (Z.gtb_spec (lastSequence this + 1) maxSequence) as [Hgt | Hle].
    + destruct (waitNextTimestamp _ _ _ _) as [[ts tm1] | |] eqn:Hw;
        try discriminate.
      intros H. injection H as <- <- <-.
      cbn [nodeID timeOffset lastTimestamp lastSequence].
      apply wait_fulfilled in Hw.
      destruct Hw as (k & _ & Hts & Hd & Hr & _ & _). cbn [reads] in *.
      repeat split. exists (S k).
      replace (reads tm + S k)%nat with (S (reads tm) + k)%nat by lia.
      repeat split; try assumption. right. split; [assumption | reflexivity].
    + intros H. injection H as <- <- <-.
      cbn [nodeID timeOffset lastTimestamp lastSequence reads].
      repeat split. exists 0%nat. rewrite Nat.add_0_r.
      repeat split. left. change maxSequence with 1023 in Hle.
      repeat split; try assumption.
  - intros H. injection H as <- <- <-.
    cbn [nodeID timeOffset lastTimestamp lastSequence reads].
    repeat split. exists 0%nat. rewrite Nat.add_0_r.
    repeat split. right. split; [assumption | reflexivity].
Qed.

End GeneratorFacts.

(** C3, as amended.  An identifier returned by [genNewID] for a timestamp
    below 2^42, a node identifier in 0..4095 and a sequence in 0..1023 is
    a non-negative integer below 2^64 with the timestamp in bits 63-22,
    the node identifier in bits 21-10 and the sequence in bits 9-0; bit 63
    is 0 as long as the timestamp is below 2^41. *)
Theorem identifier_layout
        (now : nat -> Z) (fuel : nat) (this : Snowflake.t) (tm : Snowflake.Timer)
        (id : Z) (this' : Snowflake.t) (tm' : Snowflake.Timer) :
  Snowflake.genNewID now fuel this tm = JS.Fulfilled (id, this', tm') ->
  0 <= Snowflake.lastTimestamp this' < 2 ^ 42 ->
  0 <= Snowflake.nodeID this <= 4095 ->
  0 <= Snowflake.lastSequence this' <= 1023 ->
  0 <= id < 2 ^ 64
  /\ Layout.bits 22 42 id = Snowflake.lastTimestamp this'
  /\ Layout.bits 10 12 id = Snowflake.nodeID this
  /\ Layout.bits 0 10 id = Snowflake.lastSequence this'
  /\ (Snowflake.lastTimestamp this' < 2 ^ 41 -> Z.testbit id 63 = false).
Proof.
  intros Hgen Ht Hn Hs.
  apply genNewID_fulfilled in Hgen. destruct Hgen as (-> & _).
  set (ts := Snowflake.lastTimestamp this') in *.
  set (n := Snowflake.nodeID this) in *.
  set (s := Snowflake.lastSequence this') in *.
  unfold Layout.bits.
  split; [apply compose_range; assumption |].
  split; [rewrite compose_shiftr_22 by assumption; apply Z.mod_small; assumption |].
  split.
  { rewrite compose_shiftr_10 by assumption. change (2 ^ 12) with 4096.
    symmetry. apply Z.mod_unique_pos with (q := ts); lia. }
  split.
  { rewrite Z.shiftr_0_r, compose_arith by assumption. change (2 ^ 10) with 1024.
    symmetry. apply Z.mod_unique_pos with (q := ts * 4096 + n); lia. }
  intros Hsmall. rewrite compose_arith by assumption.
  change (2 ^ 41) with 2199023255552 in Hsmall.
  set (v := ts * 4194304 + n * 1024 + s).
  assert (Hv : 0 <= v < 2 ^ 63)
    by (change (2 ^ 63) with 9223372036854775808; unfold v; lia).
  destruct (Z.eq_dec v 0) as [-> | Hnz]; [apply Z.bits_0 |].
  apply Z.bits_above_log2; [lia |].
  apply Z.log2_lt_pow2; lia.
Qed.

Lemma identifier_layout_witness :
  let now := Fixtures.clock_at 1597403879759 in
  let this := Snowflake.mk 4090 1 1597403879758 566 in
  let this' := Snowflake.mk 4090 1 1597403879758 567 in
  let tm' := Snowflake.mkTimer 1 0 in
  let id := 6699997482488687159 in
  Snowflake.genNewID now 0 this Fixtures.tm0 = JS.Fulfilled (id, this', tm')
  /\ 0 <= Snowflake.lastTimestamp this' < 2 ^ 42
  /\ 0 <= Snowflake.nodeID this <= 4095
  /\ 0 <= Snowflake.lastSequence this' <= 1023
  /\ (0 <= id < 2 ^ 64
      /\ Layout.bits 22 42 id = Snowflake.lastTimestamp this'
      /\ Layout.bits 10 12 id = Snowflake.nodeID this
      /\ Layout.bits 0 10 id = Snowflake.lastSequence this'
      /\ (Snowflake.lastTimestamp this' < 2 ^ 41 -> Z.testbit id 63 = false)).
Proof.
  intros now this this' tm' id. subst now this this' tm' id.
  cbn [Snowflake.lastTimestamp Snowflake.nodeID Snowflake.lastSequence].
  split; [reflexivity |]. split; [lia |]. split; [lia |]. split; [lia |].
  apply (identifier_layout (Fixtures.clock_at 1597403879759) 0
           (Snowflake.mk 4090 1 1597403879758 566) Fixtures.tm0
           6699997482488687159
           (Snowflake.mk 4090 1 1597403879758 567) (Snowflake.mkTimer 1 0));
    [reflexivity | cbn [Snowflake.lastTimestamp]; lia
     | cbn [Snowflake.nodeID]; lia | cbn [Snowflake.lastSequence]; lia].
Defined.

(** C3, as stated, fails once the timestamp reaches 2^41: with the epoch
    offset 1 and the clock at 2^41 + 1 the identifier has bit 63 set, and
    bits 62-21 do not hold the timestamp (bit 21 is the top bit of the node
    identifier). *)
Lemma identifier_layout_as_claimed_fails :
  let this := Snowflake.new Fixtures.env0 (Some 4095) (Some 1) in
  exists id this' tm',
    Snowflake.genNewID (Fixtures.clock_at (2 ^ 41 + 1)) 0 this Fixtures.tm0
      = JS.Fulfilled (id, this', tm')
    /\ Snowflake.lastTimestamp this' = 2 ^ 41
    /\ Snowflake.nodeID this = 4095
    /\ Snowflake.lastSequence this' = 0
    /\ Z.testbit id 63 = true
    /\ Layout.bits 21 42 id <> Snowflake.lastTimestamp this'.
Proof.
  intros this. eexists _, _, _. split; [reflexivity |].
  repeat split. vm_compute. discriminate.
Qed.

(** C8.  The first call on a freshly constructed generator returns at
    once, with sequence 0, both when the first timestamp is the initial
    [lastTimestamp] (0; the sequence is then -1 + 1) and when it is not. *)
Theorem first_call_sequence_zero
        (env : Snowflake.Env) (now : nat -> Z) (n o : option Z)
        (fuel : nat) (tm : Snowflake.Timer) :
  let this := Snowflake.new env n o in
  let ts := now (Snowflake.reads tm) - Snowflake.timeOffset this in
  exists this' tm',
    Snowflake.genNewID now fuel this tm
      = JS.Fulfilled (Snowflake.compose ts (Snowflake.nodeID this) 0, this', tm')
    /\ Snowflake.lastSequence this' = 0
    /\ Snowflake.lastTimestamp this' = ts
    /\ Snowflake.getSequenceFromID
         (Snowflake.compose ts (Snowflake.nodeID this) 0) = 0.
Proof.
  intros this ts.
  pose proof (new_well_formed env n o) as [Hnode _]. fold this in Hnode.
  unfold Snowflake.genNewID, Snowflake.finish; cbn [Snowflake.readTimestamp].
  fold ts.
  change (Snowflake.lastSequence this) with (-1).
  change (Snowflake.lastTimestamp this) with 0.
  change (-1 + 1 >? Snowflake.maxSequence) with false. cbn iota.
  assert (Hseq : Snowflake.getSequenceFromID
                   (Snowflake.compose ts (Snowflake.nodeID this) 0) = 0)
    by (apply getSequenceFromID_compose; lia).
  destruct (ts =? 0); eexists _, _; (split; [reflexivity |]);
    repeat split; assumption.
Qed.

(** C2: the code does not do what the claim says.  With the epoch offset
    10 and the clock at 5 the timestamp is -5; the call does not fail but
    returns -20970496.  That identifier is negative, so its bit 63 is set,
    against the header of the source ("sign bit: always 0"), and the
    decoder, which reads the field as an unsigned 42-bit number, turns it
    into the time 4398046511109 instead of 5. *)
Theorem genNewID_before_epoch_returns :
  let this := Snowflake.new Fixtures.env0 (Some 1) (Some 10) in
  Fixtures.clock_at 5 0%nat - Snowflake.timeOffset this = -5
  /\ Snowflake.genNewID (Fixtures.clock_at 5) 0 this Fixtures.tm0
     = JS.Fulfilled (-20970496, Snowflake.mk 1 10 (-5) 0, Snowflake.mkTimer 1 0)
  /\ -20970496 < 0
  /\ Z.testbit (-20970496) 63 = true
  /\ Snowflake.getTimestampFromID Fixtures.env0 (-20970496)
                                  (Some (Snowflake.timeOffset this))
     = 4398046511109.
Proof.
  intros this. split; [reflexivity |]. split; [reflexivity |].
  split; [reflexivity |]. split; reflexivity.
Qed.

(** C5.  A call that reads the stored timestamp while the sequence is used
    up never fails.  It sleeps 1 ms and reads the clock again, as long as
    the reading gives the stored timestamp ([k] such rounds), and returns
    with the first reading that differs: the sequence is 0, and under a
    clock that never goes back the new timestamp is above the stored
    one. *)
Theorem sequence_overflow_waits
        (now : nat -> Z) (this : Snowflake.t) (tm : Snowflake.Timer) (k : nat) :
  0 <= Snowflake.nodeID this <= 4095 ->
  now (Snowflake.reads tm) - Snowflake.timeOffset this
    = Snowflake.lastTimestamp this ->
  Snowflake.lastSequence this + 1 > 1023 ->
  (forall j, (j < k)%nat ->
             now (S (Snowflake.reads tm) + j)%nat - Snowflake.timeOffset this
             = Snowflake.lastTimestamp this) ->
  now (S (Snowflake.reads tm) + k)%nat - Snowflake.timeOffset this
    <> Snowflake.lastTimestamp this ->
  let ts' := now (S (Snowflake.reads tm) + k)%nat - Snowflake.timeOffset this in
  let id := Snowflake.compose ts' (Snowflake.nodeID this) 0 in
  (forall fuel, Snowflake.genNewID now fuel this tm <> JS.Rejected)
  /\ (forall fuel, (fuel <= k)%nat ->
                   Snowflake.genNewID now fuel this tm = JS.Pending)
  /\ (forall fuel, (k < fuel)%nat ->
        Snowflake.genNewID now fuel this tm
        = JS.Fulfilled
            (id,
             {| Snowflake.nodeID := Snowflake.nodeID this;
                Snowflake.timeOffset := Snowflake.timeOffset this;
                Snowflake.lastTimestamp := ts';
                Snowflake.lastSequence := 0 |},
             {| Snowflake.reads := S (S (Snowflake.reads tm) + k);
                Snowflake.slept := Snowflake.slept tm + Z.of_nat (S k) |}))
  /\ Snowflake.getSequenceFromID id = 0
  /\ Z.shiftr id 22 = ts'
  /\ (0 <= ts' < 2 ^ 42 -> Layout.bits 22 42 id = ts')
  /\ (Layout.nondecreasing now -> Snowflake.lastTimestamp this < ts').
Proof.
  intros Hnode Hsame Hfull Hstill Hmoved ts' id.
  pose proof (wait_runs now this k) as Hwait.
  assert (Hhead : forall fuel,
             Snowflake.genNewID now fuel this tm
             = match Snowflake.waitNextTimestamp now fuel this
                       {| Snowflake.reads := S (Snowflake.reads tm);
                          Snowflake.slept := Snowflake.slept tm |} with
               | JS.Fulfilled (timestamp, tm1) =>
                   Snowflake.finish this timestamp 0 tm1
               | JS.Rejected => JS.Rejected
               | JS.Pending => JS.Pending
               end).
  { intros fuel. unfold Snowflake.genNewID; cbn [Snowflake.readTimestamp].
    rewrite Hsame, Z.eqb_refl.
    destruct (Z.gtb_spec (Snowflake.lastSequence this + 1) Snowflake.maxSequence)
      as [_ | Hle]; [reflexivity |].
    change Snowflake.maxSequence with 1023 in Hle. lia. }
  split; [intros fuel; apply genNewID_not_rejected |].
  split.
  { intros fuel Hle. rewrite Hhead.
    destruct (Hwait fuel {| Snowflake.reads := S (Snowflake.reads tm);
                            Snowflake.slept := Snowflake.slept tm |} Hstill)
      as [Hp _].
    rewrite (Hp Hle). reflexivity. }
  split.
  { intros fuel Hlt. rewrite Hhead.
    destruct (Hwait fuel {| Snowflake.reads := S (Snowflake.reads tm);
                            Snowflake.slept := Snowflake.slept tm |} Hstill)
      as [_ Hf].
    cbn [Snowflake.reads Snowflake.slept] in Hf.
    rewrite (Hf Hlt Hmoved). reflexivity. }
  split; [apply getSequenceFromID_compose; lia |].
  split; [apply compose_shiftr_22; lia |].
  split.
  { intros Hrange. unfold Layout.bits. unfold id.
    rewrite compose_shiftr_22 by lia. apply Z.mod_small. assumption. }
  intros Hmono.
  assert (now (Snowflake.reads tm) <= now (S (Snowflake.reads tm) + k)%nat)
    by (apply Hmono; lia).
  unfold ts' in *. lia.
Qed.

Lemma sequence_overflow_waits_witness :
  let now := Fixtures.slow_clock 3 101 in
  let this := Fixtures.exhausted in
  let tm := Snowflake.mkTimer 1 0 in
  (0 <= Snowflake.nodeID this <= 4095
   /\ now (Snowflake.reads tm) - Snowflake.timeOffset this
      = Snowflake.lastTimestamp this
   /\ Snowflake.lastSequence this + 1 > 1023
   /\ (forall j, (j < 1)%nat ->
         now (S (Snowflake.reads tm) + j)%nat - Snowflake.timeOffset this
         = Snowflake.lastTimestamp this)
   /\ now (S (Snowflake.reads tm) + 1)%nat - Snowflake.timeOffset this
      <> Snowflake.lastTimestamp this)
  /\ (forall fuel, (fuel <= 1)%nat ->
                   Snowflake.genNewID now fuel this tm = JS.Pending)
  /\ Snowflake.genNewID now 2 this tm
     = JS.Fulfilled (Snowflake.compose 101 4090 0,
                     Snowflake.mk 4090 1 101 0, Snowflake.mkTimer 4 2)
  /\ Snowflake.getSequenceFromID (Snowflake.compose 101 4090 0) = 0
  /\ (Layout.nondecreasing now -> 100 < 101).
Proof.
  intros now this tm.
  assert (Hnode : 0 <= Snowflake.nodeID this <= 4095) by (cbn; lia).
  assert (Hsame : now (Snowflake.reads tm) - Snowflake.timeOffset this
                  = Snowflake.lastTimestamp this) by reflexivity.
  assert (Hfull : Snowflake.lastSequence this + 1 > 1023) by reflexivity.
  assert (Hstill : forall j, (j < 1)%nat ->
             now (S (Snowflake.reads tm) + j)%nat - Snowflake.timeOffset this
             = Snowflake.lastTimestamp this).
  { intros j Hj. assert (j = 0%nat) as -> by lia. reflexivity. }
  assert (Hmoved : now (S (Snowflake.reads tm) + 1)%nat - Snowflake.timeOffset this
                   <> Snowflake.lastTimestamp this)
    by (vm_compute; discriminate).
  split; [split; [| split; [| split; [| split]]]; assumption |].
  destruct (sequence_overflow_waits now this tm 1 Hnode Hsame Hfull Hstill Hmoved)
    as (_ & Hpending & Hdone & Hseq & _ & _ & Hup).
  split; [exact Hpending |].
  split; [exact (Hdone 2%nat ltac:(lia)) |].
  split; [exact Hseq | exact Hup].
Defined.

(** ** Invariants of a generator in use *)

Section InvariantFacts.
Import JS Snowflake.

Variable now : nat -> Z.

Lemma genNewID_well_formed (fuel : nat) (this : t) (tm : Timer)
      (id : Z) (this' : t) (tm' : Timer) :
  Layout.well_formed this ->
  genNewID now fuel this tm = Fulfilled (id, this', tm') ->
  Layout.well_formed this' /\ 0 <= lastSequence this' <= 1023.
Proof.
  intros [Hnode Hseq] Hgen. apply genNewID_fulfilled in Hgen.
  destruct Hgen as (_ & Hn & _ & k & _ & _ & Hcase).
  unfold Layout.well_formed. rewrite Hn.
  destruct Hcase as [(_ & _ & -> & ?) | (_ & ->)]; lia.
Qed.

Lemma genNewID_clock_ahead (fuel : nat) (this : t) (tm : Timer)
      (id : Z) (this' : t) (tm' : Timer) :
  Layout.nondecreasing now ->
  genNewID now fuel this tm = Fulfilled (id, this', tm') ->
  Layout.clock_ahead now this' tm'.
Proof.
  intros Hmono Hgen. apply genNewID_fulfilled in Hgen.
  destruct Hgen as (_ & _ & Ho & k & Hts & Hr & _).
  intros _ j Hj. rewrite Hts, Ho.
  assert (now (reads tm + k)%nat <= now j) by (apply Hmono; lia). lia.
Qed.

(** The heart of monotonicity: a completed call returns more than the
    call before it did. *)
Lemma genNewID_above (fuel : nat) (this : t) (tm : Timer)
      (id : Z) (this' : t) (tm' : Timer) :
  Layout.well_formed this ->
  Layout.clock_ahead now this tm ->
  genNewID now fuel this tm = Fulfilled (id, this', tm') ->
  Layout.above this id.
Proof.
  intros [Hnode Hseq] Hahead Hgen Hused.
  apply genNewID_fulfilled in Hgen.
  destruct Hgen as (-> & _ & _ & k & Hts & _ & Hcase).
  specialize (Hahead Hused (reads tm + k)%nat ltac:(lia)).
  rewrite <- Hts in Hahead.
  destruct Hcase as [(_ & Hsame & Hnext & Hroom) | (Hdiff & Hzero)].
  - rewrite Hsame, Hnext, !compose_arith by lia. lia.
  - rewrite Hzero, !compose_arith by lia. lia.
Qed.

Lemma StronglySorted_lt_NoDup (l : list Z) :
  StronglySorted Z.lt l -> NoDup l.
Proof.
  induction 1 as [| a l _ IH Hall]; constructor; [| exact IH].
  intros Hin. rewrite Forall_forall in Hall.
  specialize (Hall a Hin). lia.
Qed.

End InvariantFacts.

Section ProgramFacts.
Import JS Snowflake Program.

Variable env : Env.
Variable now : nat -> Z.

Lemma step_get (opts : option SnowflakeOpts) (w : World) :
  step env now (Get opts) w
  = (Returned (fst (get env opts (instance w))),
     {| instance := snd (get env opts (instance w)); timer := timer w |}).
Proof. unfold step. destruct (get env opts (instance w)); reflexivity. Qed.

Lemma step_gen_generated (fuel : nat) (w : World) (id : Z) (w' : World) :
  step env now (GenNewID fuel) w = (Generated id, w') ->
  exists this this' tm',
    instance w = Some this
    /\ genNewID now fuel this (timer w) = Fulfilled (id, this', tm')
    /\ w' = {| instance := Some this'; timer := tm' |}.
Proof.
  unfold step. destruct (instance w) as [this |]; [| discriminate].
  destruct (genNewID now fuel this (timer w)) as [[[id0 this'] tm'] | |] eqn:E;
    try discriminate.
  intros H. injection H as <- <-. exists this, this', tm'.
  split; [reflexivity |]. split; [exact E | reflexivity].
Qed.

Lemma reachable_well_formed (w : World) (this : t) :
  reachable env now w -> instance w = Some this -> Layout.well_formed this.
Proof.
  intros Hreach. revert this.
  induction Hreach as [| w opts _ IH | w fuel id w' _ IH Hstep]; intros this Hinst.
  - discriminate Hinst.
  - rewrite step_get in Hinst. cbn [snd instance] in Hinst.
    destruct (instance w) as [s |]; cbn [get snd] in Hinst;
      injection Hinst as <-; [apply IH; reflexivity | apply new_well_formed].
  - apply step_gen_generated in Hstep.
    destruct Hstep as (s & s' & tm' & Hs & Hgen & ->).
    cbn [instance] in Hinst. injection Hinst as <-.
    exact (proj1 (genNewID_well_formed now fuel s (timer w) id s' tm'
                    (IH s Hs) Hgen)).
Qed.

End ProgramFacts.

Section RunFacts.
Import JS Snowflake Program.

Variable env : Env.
Variable now : nat -> Z.

Lemma run_get (opts : option SnowflakeOpts) (cs : list call) (w : World) :
  fst (run env now (Get opts :: cs) w)
  = Returned (fst (get env opts (instance w)))
    :: fst (run env now cs {| instance := snd (get env opts (instance w));
                              timer := timer w |}).
Proof.
  cbn [run]. rewrite step_get.
  destruct (run env now cs _) as [es w'']. reflexivity.
Qed.

Lemma step_gen_not_returned (fuel : nat) (w : World) (s : t) (w' : World) :
  step env now (GenNewID fuel) w <> (Returned s, w').
Proof.
  unfold step. destruct (instance w) as [this |]; [| discriminate].
  destruct (genNewID now fuel this (timer w)) as [[[id this'] tm'] | |];
    discriminate.
Qed.

(** A call to [genNewID] either hands out an identifier and lets the
    client go on, or ends the run without one. *)
Lemma run_gen (fuel : nat) (cs : list call) (w : World) :
  (exists id w',
      step env now (GenNewID fuel) w = (Generated id, w')
      /\ fst (run env now (GenNewID fuel :: cs) w)
         = Generated id :: fst (run env now cs w'))
  \/ (ids (fst (run env now (GenNewID fuel :: cs) w)) = []
      /\ returned (fst (run env now (GenNewID fuel :: cs) w)) = []).
Proof.
  cbn [run]. destruct (step env now (GenNewID fuel) w) as [e w'] eqn:Hstep.
  destruct e as [s | id | |].
  - exfalso. exact (step_gen_not_returned fuel w s w' Hstep).
  - left. exists id, w'. split; [reflexivity |].
    destruct (run env now cs w') as [es w'']. reflexivity.
  - right. split; reflexivity.
  - right. split; reflexivity.
Qed.

Lemma run_increasing :
  Layout.nondecreasing now ->
  forall (cs : list call) (w : World),
    Layout.world_ok now w ->
    StronglySorted Z.lt (ids (fst (run env now cs w)))
    /\ Forall (Layout.world_above w) (ids (fst (run env now cs w))).
Proof.
  intros Hmono. induction cs as [| c cs IH]; intros w Hok.
  - split; constructor.
  - destruct c as [opts | fuel].
    + rewrite run_get. cbn [ids flat_map app].
      fold (ids (fst (run env now cs
                        {| instance := snd (get env opts (instance w));
                           timer := timer w |}))).
      unfold Layout.world_ok, Layout.world_above in *.
      destruct (instance w) as [s |] eqn:Hinst; cbn [get snd].
      * specialize (IH {| instance := Some s; timer := timer w |}).
        cbn [instance timer] in IH. exact (IH Hok).
      * specialize (IH {| instance := Some (new env (opts_nodeID opts)
                                                   (opts_timeOffset opts));
                          timer := timer w |}).
        cbn [instance timer] in IH.
        destruct IH as [Hsorted _].
        { split; [apply new_well_formed |].
          intros Hused. cbn [new lastSequence] in Hused. lia. }
        split; [exact Hsorted | apply Forall_forall; intros; exact I].
    + destruct (run_gen fuel cs w) as [(id & w' & Hstep & ->) | [-> _]];
        [| split; constructor].
      cbn [ids flat_map app]. fold (ids (fst (run env now cs w'))).
      apply step_gen_generated in Hstep.
      destruct Hstep as (this & this' & tm' & Hinst & Hgen & ->).
      unfold Layout.world_ok, Layout.world_above in Hok |- *.
      rewrite Hinst in *. destruct Hok as [Hwf Hahead].
      pose proof (genNewID_well_formed now fuel this (timer w) id this' tm'
                    Hwf Hgen) as [Hwf' Hseq'].
      pose proof (genNewID_clock_ahead now fuel this (timer w) id this' tm'
                    Hmono Hgen) as Hahead'.
      pose proof (genNewID_above now fuel this (timer w) id this' tm'
                    Hwf Hahead Hgen) as Hup.
      pose proof (genNewID_fulfilled now fuel this (timer w) id this' tm' Hgen)
        as (Hid & Hnode & _).
      specialize (IH {| instance := Some this'; timer := tm' |}).
      unfold Layout.world_ok, Layout.world_above in IH.
      cbn [instance timer] in IH.
      destruct (IH (conj Hwf' Hahead')) as [Hsorted Hall].
      assert (Hlater : Forall (Z.lt id) (ids (fst (run env now cs
                         {| instance := Some this'; timer := tm' |})))).
      { apply Forall_forall. intros x Hx. rewrite Forall_forall in Hall.
        specialize (Hall x Hx). unfold Layout.above in Hall.
        rewrite Hid, <- Hnode. apply Hall. lia. }
      split.
      * constructor; assumption.
      * constructor; [exact Hup |].
        apply Forall_forall. intros x Hx. rewrite Forall_forall in Hlater.
        specialize (Hlater x Hx). intros Hused. specialize (Hup Hused). lia.
Qed.

Lemma run_returned_config :
  forall (cs : list call) (w : World) (s : t),
    instance w = Some s ->
    Forall (fun r => nodeID r = nodeID s /\ timeOffset r = timeOffset s)
           (returned (fst (run env now cs w))).
Proof.
  induction cs as [| c cs IH]; intros w s Hinst; [constructor |].
  destruct c as [opts | fuel].
  - rewrite run_get, Hinst. cbn [get fst snd returned flat_map app].
    constructor; [split; reflexivity |].
    apply (IH {| instance := Some s; timer := timer w |} s). reflexivity.
  - destruct (run_gen fuel cs w) as [(id & w' & Hstep & ->) | [_ ->]];
      [| constructor].
    cbn [returned flat_map app]. fold (returned (fst (run env now cs w'))).
    apply step_gen_generated in Hstep.
    destruct Hstep as (this & this' & tm' & Hthis & Hgen & ->).
    rewrite Hinst in Hthis. injection Hthis as <-.
    apply genNewID_fulfilled in Hgen. destruct Hgen as (_ & Hn & Ho & _).
    rewrite <- Hn, <- Ho.
    apply (IH {| instance := Some this'; timer := tm' |} this'). reflexivity.
Qed.

(** A client that only generates gets one identifier per call, unless
    a call is still waiting for the clock. *)
Lemma run_gens_count :
  forall (fuels : list nat) (w : World) (this : t),
    instance w = Some this ->
    In Blocked (fst (run env now (map GenNewID fuels) w))
    \/ length (ids (fst (run env now (map GenNewID fuels) w))) = length fuels.
Proof.
  induction fuels as [| fuel fuels IH]; intros w this Hinst;
    [right; reflexivity |].
  cbn [map run step]. rewrite Hinst.
  pose proof (genNewID_not_rejected now fuel this (timer w)) as Hnr.
  destruct (genNewID now fuel this (timer w)) as [[[id this'] tm'] | |];
    [| contradiction | left; left; reflexivity].
  specialize (IH {| instance := Some this'; timer := tm' |} this' eq_refl).
  destruct (run env now (map GenNewID fuels) _) as [es w''].
  cbn [fst] in *. destruct IH as [Hb | Hlen].
  - left. right. exact Hb.
  - right. cbn [ids flat_map app length]. fold (ids es). rewrite Hlen. reflexivity.
Qed.

End RunFacts.

(** C1.  Under a wall clock that never goes back, the identifiers a
    sequential client obtains from the generator, each call having
    returned before the next is made, are strictly increasing, so they
    are pairwise distinct; and N calls that all returned gave N of
    them. *)
Theorem identifiers_strictly_increase
        (env : Snowflake.Env) (now : nat -> Z) (cs : list Program.call) :
  Layout.nondecreasing now ->
  let es := fst (Program.run env now cs Program.boot) in
  StronglySorted Z.lt (Program.ids es)
  /\ NoDup (Program.ids es)
  /\ (forall opts fuels,
        cs = Program.Get opts :: map Program.GenNewID fuels ->
        ~ In Program.Blocked es ->
        length (Program.ids es) = length fuels).
Proof.
  intros Hmono es.
  destruct (run_increasing env now Hmono cs Program.boot I) as [Hsorted _].
  split; [exact Hsorted |].
  split; [apply StronglySorted_lt_NoDup; exact Hsorted |].
  intros opts fuels -> Hdone. unfold es in *. clear es Hsorted.
  rewrite run_get in *. cbn [Program.ids flat_map app].
  fold (Program.ids (fst (Program.run env now (map Program.GenNewID fuels)
          {| Program.instance :=
               snd (Snowflake.get env opts (Program.instance Program.boot));
             Program.timer := Program.timer Program.boot |}))).
  destruct (run_gens_count env now fuels
              {| Program.instance :=
                   snd (Snowflake.get env opts (Program.instance Program.boot));
                 Program.timer := Program.timer Program.boot |}
              (Snowflake.new env (Snowflake.opts_nodeID opts)
                                 (Snowflake.opts_timeOffset opts))
              eq_refl) as [Hb | Hlen]; [| exact Hlen].
  exfalso. apply Hdone. right. exact Hb.
Qed.

(** C10.  [Snowflake.get] on a filled slot returns the instance in the
    slot, whatever the options; so every [get] of a run, however it is
    interleaved with calls to [genNewID], returns an instance with the
    [nodeID] and [timeOffset] the first [get] gave it. *)
Theorem get_returns_first_instance
        (env : Snowflake.Env) (now : nat -> Z)
        (opts0 : option Snowflake.SnowflakeOpts) (cs : list Program.call) :
  let first := Snowflake.new env (Snowflake.opts_nodeID opts0)
                                 (Snowflake.opts_timeOffset opts0) in
  (forall opts s, Snowflake.get env opts (Some s) = (s, Some s))
  /\ Forall (fun r => Snowflake.nodeID r = Snowflake.nodeID first
                      /\ Snowflake.timeOffset r = Snowflake.timeOffset first)
            (Program.returned
               (fst (Program.run env now (Program.Get opts0 :: cs) Program.boot))).
Proof.
  intros first. split; [reflexivity |].
  rewrite run_get. cbn [Program.boot Program.instance Snowflake.get fst snd].
  cbn [Program.returned flat_map app]. fold first.
  constructor; [split; reflexivity |].
  apply (run_returned_config env now cs
           {| Program.instance := Some first;
              Program.timer := Program.timer Program.boot |} first).
  reflexivity.
Qed.

Lemma slow_clock_nondecreasing (hold : nat) (start : Z) :
  Layout.nondecreasing (Fixtures.slow_clock hold start).
Proof.
  intros i j Hij. unfold Fixtures.slow_clock.
  pose proof (Nat.Div0.div_le_mono i j hold Hij). lia.
Qed.

Lemma identifiers_strictly_increase_witness :
  let now := Fixtures.slow_clock 3 (utc_2023 + 5) in
  let cs := [Program.Get (Some (Snowflake.mkOpts (Some 4090) None));
             Program.GenNewID 0; Program.GenNewID 0; Program.GenNewID 0;
             Program.GenNewID 0] in
  Layout.nondecreasing now
  /\ Program.ids (fst (Program.run Fixtures.env0 now cs Program.boot))
     = [25159680; 25159681; 25159682; 29353984]
  /\ (let es := fst (Program.run Fixtures.env0 now cs Program.boot) in
      StronglySorted Z.lt (Program.ids es)
      /\ NoDup (Program.ids es)
      /\ (forall opts fuels,
            cs = Program.Get opts :: map Program.GenNewID fuels ->
            ~ In Program.Blocked es ->
            length (Program.ids es) = length fuels)).
Proof.
  intros now cs.
  split; [apply slow_clock_nondecreasing |].
  split; [reflexivity |].
  exact (identifiers_strictly_increase Fixtures.env0 now cs
           (slow_clock_nondecreasing 3 (utc_2023 + 5))).
Defined.

(** C7.  Between any two calls of a sequential client the node
    identifier of the generator is within 0..4095; every completed
    [genNewID] leaves [lastSequence] within 0..1023; and the identifier it
    returns carries exactly these two values in its node and sequence
    fields, which are therefore at most 4095 and 1023. *)
Theorem generator_bounds
        (env : Snowflake.Env) (now : nat -> Z) (w : Program.World)
        (this : Snowflake.t) :
  Program.reachable env now w ->
  Program.instance w = Some this ->
  0 <= Snowflake.nodeID this <= 4095
  /\ forall fuel id this' tm',
       Snowflake.genNewID now fuel this (Program.timer w)
         = JS.Fulfilled (id, this', tm') ->
       0 <= Snowflake.lastSequence this' <= 1023
       /\ 0 <= Snowflake.nodeID this' <= 4095
       /\ Snowflake.getNodeIDFromID id = Snowflake.nodeID this'
       /\ Snowflake.getSequenceFromID id = Snowflake.lastSequence this'
       /\ Snowflake.getNodeIDFromID id <= 4095
       /\ Snowflake.getSequenceFromID id <= 1023.
Proof.
  intros Hreach Hinst.
  pose proof (reachable_well_formed env now w this Hreach Hinst) as Hwf.
  split; [exact (proj1 Hwf) |].
  intros fuel id this' tm' Hgen.
  pose proof (genNewID_well_formed now fuel this (Program.timer w) id this' tm'
                Hwf Hgen) as [[Hnode' _] Hseq'].
  apply genNewID_fulfilled in Hgen. destruct Hgen as (-> & Hn & _).
  rewrite <- Hn.
  rewrite getNodeIDFromID_compose, getSequenceFromID_compose by lia.
  repeat split; lia.
Qed.

Lemma generator_bounds_witness :
  let now := Fixtures.clock_at (utc_2023 + 5) in
  let w := snd (Program.step Fixtures.env0 now
                             (Program.Get (Some (Snowflake.mkOpts (Some 5000) None)))
                             Program.boot) in
  let this := Snowflake.mk 904 utc_2023 0 (-1) in
  Program.reachable Fixtures.env0 now w
  /\ Program.instance w = Some this
  /\ 0 <= Snowflake.nodeID this <= 4095
  /\ forall fuel id this' tm',
       Snowflake.genNewID now fuel this (Program.timer w)
         = JS.Fulfilled (id, this', tm') ->
       0 <= Snowflake.lastSequence this' <= 1023
       /\ 0 <= Snowflake.nodeID this' <= 4095
       /\ Snowflake.getNodeIDFromID id = Snowflake.nodeID this'
       /\ Snowflake.getSequenceFromID id = Snowflake.lastSequence this'
       /\ Snowflake.getNodeIDFromID id <= 4095
       /\ Snowflake.getSequenceFromID id <= 1023.
Proof.
  intros now w this.
  assert (Hreach : Program.reachable Fixtures.env0 now w)
    by (apply Program.reach_get; apply Program.reach_boot).
  assert (Hinst : Program.instance w = Some this) by reflexivity.
  split; [exact Hreach |]. split; [exact Hinst |].
  exact (generator_bounds Fixtures.env0 now w this Hreach Hinst).
Defined.

(** ** Further properties of the layout *)

Section DecoderFacts.
Import Snowflake.

(** On a bigint nothing is lost by shifting left first: each decoder
    reads its field straight out of the identifier. *)
Lemma getNodeIDFromID_field (id : Z) :
  getNodeIDFromID id = (id / 1024) mod 4096.
Proof.
  unfold getNodeIDFromID, JS.asUintN, EPOCH_BITS, SEQUENCE_BITS, NODE_ID_BITS.
  rewrite Z.shiftr_shiftl_r by lia. change (42 + 10 - 42) with 10.
  rewrite Z.shiftr_div_pow2 by lia. reflexivity.
Qed.

Lemma getSequenceFromID_field (id : Z) :
  getSequenceFromID id = id mod 1024.
Proof.
  unfold getSequenceFromID, JS.asUintN, TOTAL_BITS, SEQUENCE_BITS.
  rewrite Z.shiftr_shiftl_l by lia.
  change (64 - 10 - (64 - 10)) with 0. rewrite Z.shiftl_0_r. reflexivity.
Qed.

Lemma getTimestampFromID_field (env : Env) (id : Z) (o : option Z) :
  getTimestampFromID env id o
  = JS.to_double
      ((id / 4194304) mod 2 ^ 42
       + (if JS.falsy o then defaultTimeOffset env
          else match o with Some e => e | None => 0 end)).
Proof.
  rewrite getTimestampFromID_double, Z.shiftr_div_pow2 by lia. reflexivity.
Qed.

(** A sum of a 42-bit field and an offset between -2^53 and 2^53 - 2^42
    is a double. *)
Lemma field_plus_offset_exact (field offset : Z) :
  0 <= field < 2 ^ 42 -> - 2 ^ 53 <= offset <= 2 ^ 53 - 2 ^ 42 ->
  JS.to_double (field + offset) = field + offset.
Proof.
  intros Hf Ho. apply to_double_exact.
  change (2 ^ 42) with 4398046511104 in *.
  change (2 ^ 53) with 9007199254740992 in *. lia.
Qed.

Lemma split_fields (id : Z) :
  id = (id / 4194304) * 4194304 + ((id / 1024) mod 4096) * 1024 + id mod 1024.
Proof.
  pose proof (Z.div_mod id 1024 ltac:(lia)) as H1.
  pose proof (Z.div_mod (id / 1024) 4096 ltac:(lia)) as H2.
  assert (H3 : id / 4194304 = id / 1024 / 4096)
    by (rewrite Z.div_div by lia; reflexivity).
  rewrite H3. lia.
Qed.

End DecoderFacts.

(** X1.  The composition is injective: with node identifiers in 0..4095
    and sequences in 0..1023, two identifiers are equal only if timestamp,
    node identifier and sequence all agree.  Generators with different
    node identifiers therefore never hand out the same identifier. *)
Theorem compose_injective (t1 n1 s1 t2 n2 s2 : Z) :
  0 <= n1 <= 4095 -> 0 <= s1 <= 1023 ->
  0 <= n2 <= 4095 -> 0 <= s2 <= 1023 ->
  Snowflake.compose t1 n1 s1 = Snowflake.compose t2 n2 s2 ->
  t1 = t2 /\ n1 = n2 /\ s1 = s2.
Proof.
  intros Hn1 Hs1 Hn2 Hs2. rewrite !compose_arith by assumption. lia.
Qed.

Lemma compose_injective_witness :
  0 <= 4090 <= 4095 /\ 0 <= 567 <= 1023
  /\ Snowflake.compose 1597403879758 4090 567
     = Snowflake.compose 1597403879758 4090 567
  /\ (1597403879758 = 1597403879758 /\ 4090 = 4090 /\ 567 = 567).
Proof.
  split; [lia |]. split; [lia |]. split; [reflexivity |].
  apply (compose_injective 1597403879758 4090 567 1597403879758 4090 567);
    (lia || reflexivity).
Defined.

(** X2.  Identifiers are ordered like the triples (timestamp, node
    identifier, sequence), the timestamp counting first: an identifier
    from an earlier millisecond is below every identifier from a later
    one, whichever nodes made them. *)
Theorem compose_ordered (t1 n1 s1 t2 n2 s2 : Z) :
  0 <= n1 <= 4095 -> 0 <= s1 <= 1023 ->
  0 <= n2 <= 4095 -> 0 <= s2 <= 1023 ->
  (Snowflake.compose t1 n1 s1 < Snowflake.compose t2 n2 s2
   <-> t1 < t2 \/ (t1 = t2 /\ (n1 < n2 \/ (n1 = n2 /\ s1 < s2)))).
Proof.
  intros Hn1 Hs1 Hn2 Hs2. rewrite !compose_arith by assumption. lia.
Qed.

Lemma compose_ordered_witness :
  0 <= 4095 <= 4095 /\ 0 <= 1023 <= 1023 /\ 0 <= 0 <= 4095 /\ 0 <= 0 <= 1023
  /\ (Snowflake.compose 7 4095 1023 < Snowflake.compose 8 0 0
      <-> 7 < 8 \/ (7 = 8 /\ (4095 < 0 \/ (4095 = 0 /\ 1023 < 0)))).
Proof.
  split; [lia |]. split; [lia |]. split; [lia |]. split; [lia |].
  apply (compose_ordered 7 4095 1023 8 0 0); lia.
Defined.

(** X3.  Decoding and composing again gives the identifier back: for
    every integer in 0 .. 2^64 - 1 and every non-zero epoch offset
    between -2^53 and 2^53 - 2^42, for which the addition of the decoder
    is exact, the three decoded fields (the offset taken off the
    timestamp) compose to the integer itself. *)
Theorem compose_decoded (env : Snowflake.Env) (id e : Z) :
  0 <= id < 2 ^ 64 -> e <> 0 -> - 2 ^ 53 <= e <= 2 ^ 53 - 2 ^ 42 ->
  Snowflake.compose (Snowflake.getTimestampFromID env id (Some e) - e)
                    (Snowflake.getNodeIDFromID id)
                    (Snowflake.getSequenceFromID id)
  = id.
Proof.
  intros Hid He Hsafe.
  rewrite getTimestampFromID_field, getNodeIDFromID_field, getSequenceFromID_field.
  cbn [JS.falsy]. destruct (Z.eqb_spec e 0) as [? | _]; [contradiction |].
  pose proof (Z.mod_pos_bound (id / 1024) 4096 ltac:(lia)).
  pose proof (Z.mod_pos_bound id 1024 ltac:(lia)).
  pose proof (Z.mod_pos_bound (id / 4194304) (2 ^ 42) ltac:(lia)) as Hfield.
  rewrite field_plus_offset_exact by assumption.
  rewrite compose_arith by lia.
  assert (Hts : (id / 4194304) mod 2 ^ 42 = id / 4194304).
  { apply Z.mod_small. split.
    - apply Z.div_pos; lia.
    - apply Z.div_lt_upper_bound; [lia |].
      change (4194304 * 2 ^ 42) with (2 ^ 64). lia. }
  rewrite Hts. replace (id / 4194304 + e - e) with (id / 4194304) by lia.
  symmetry. apply split_fields.
Qed.

Lemma compose_decoded_witness :
  0 <= 18446744073709551615 < 2 ^ 64 /\ 1 <> 0
  /\ - 2 ^ 53 <= 1 <= 2 ^ 53 - 2 ^ 42
  /\ Snowflake.compose
       (Snowflake.getTimestampFromID (Snowflake.mkEnv 7 utc_2023)
                                     18446744073709551615 (Some 1) - 1)
       (Snowflake.getNodeIDFromID 18446744073709551615)
       (Snowflake.getSequenceFromID 18446744073709551615)
     = 18446744073709551615.
Proof.
  split; [lia |]. split; [lia |]. split; [lia |].
  apply (compose_decoded (Snowflake.mkEnv 7 utc_2023) 18446744073709551615 1); lia.
Defined.

(** X4.  The decoders accept every bigint, negative or wider than 64 bits
    included, and read plain bit fields: the node identifier is bits
    21-10, within 0..4095; the sequence is bits 9-0, within 0..1023; the
    timestamp is the double nearest to bits 63-22 plus the offset in use,
    which is that sum itself, less than 2^42 milliseconds after the
    offset, whenever the offset lies between -2^53 and 2^53 - 2^42. *)
Theorem decoders_bounded (env : Snowflake.Env) (id : Z) (o : option Z) :
  let offset := if JS.falsy o then Snowflake.defaultTimeOffset env
                else match o with Some e => e | None => 0 end in
  0 <= Snowflake.getNodeIDFromID id <= 4095
  /\ 0 <= Snowflake.getSequenceFromID id <= 1023
  /\ Snowflake.getNodeIDFromID id = Layout.bits 10 12 id
  /\ Snowflake.getSequenceFromID id = Layout.bits 0 10 id
  /\ Snowflake.getTimestampFromID env id o
     = JS.to_double (Layout.bits 22 42 id + offset)
  /\ (- 2 ^ 53 <= offset <= 2 ^ 53 - 2 ^ 42 ->
      Snowflake.getTimestampFromID env id o = Layout.bits 22 42 id + offset
      /\ offset <= Snowflake.getTimestampFromID env id o < offset + 2 ^ 42).
Proof.
  intros offset.
  rewrite getTimestampFromID_double, getNodeIDFromID_field, getSequenceFromID_field.
  fold offset.
  pose proof (Z.mod_pos_bound (id / 1024) 4096 ltac:(lia)).
  pose proof (Z.mod_pos_bound id 1024 ltac:(lia)).
  pose proof (Z.mod_pos_bound (Z.shiftr id 22) (2 ^ 42) ltac:(lia)) as Hfield.
  unfold Layout.bits. rewrite Z.shiftr_0_r, (Z.shiftr_div_pow2 id 10) by lia.
  change (2 ^ 10) with 1024. change (2 ^ 12) with 4096.
  split; [lia |]. split; [lia |]. split; [reflexivity |].
  split; [reflexivity |]. split; [reflexivity |].
  intros Hsafe. rewrite field_plus_offset_exact by assumption.
  split; [reflexivity | lia].
Qed.

(** X5.  The timestamp field holds the timestamp modulo 2^42.  A
    timestamp outside 0 .. 2^42 - 1 is therefore not recovered by the
    decoder: for a negative one, down to -2^42, the decoder answers
    2^42 milliseconds too much.  The offset is any non-zero one between
    -2^53 and 2^53 - 2^42, for which the addition of the decoder is
    exact. *)
Theorem decode_timestamp_wraps (env : Snowflake.Env) (t n s e : Z) :
  0 <= n <= 4095 -> 0 <= s <= 1023 ->
  e <> 0 -> - 2 ^ 53 <= e <= 2 ^ 53 - 2 ^ 42 ->
  Snowflake.getTimestampFromID env (Snowflake.compose t n s) (Some e)
  = t mod 2 ^ 42 + e
  /\ (- 2 ^ 42 <= t < 0 ->
      Snowflake.getTimestampFromID env (Snowflake.compose t n s) (Some e)
      = t + e + 2 ^ 42).
Proof.
  intros Hn Hs He Hsafe.
  assert (E : Snowflake.getTimestampFromID env (Snowflake.compose t n s) (Some e)
              = t mod 2 ^ 42 + e).
  { rewrite getTimestampFromID_compose by assumption.
    cbn [JS.falsy]. destruct (Z.eqb_spec e 0) as [? | _]; [contradiction |].
    apply field_plus_offset_exact; [| exact Hsafe].
    apply Z.mod_pos_bound. lia. }
  split; [exact E |].
  intros Ht. rewrite E.
  assert (t mod 2 ^ 42 = t + 2 ^ 42); [| lia].
  symmetry. apply Z.mod_unique_pos with (q := -1); lia.
Qed.

Lemma decode_timestamp_wraps_witness :
  0 <= 1 <= 4095 /\ 0 <= 0 <= 1023 /\ 10 <> 0
  /\ - 2 ^ 53 <= 10 <= 2 ^ 53 - 2 ^ 42 /\ - 2 ^ 42 <= -5 < 0
  /\ Snowflake.getTimestampFromID Fixtures.env0 (Snowflake.compose (-5) 1 0) (Some 10)
     = -5 + 10 + 2 ^ 42.
Proof.
  split; [lia |]. split; [lia |]. split; [lia |]. split; [lia |]. split; [lia |].
  apply (decode_timestamp_wraps Fixtures.env0 (-5) 1 0 10); lia.
Defined.

(** ** Further properties of the constructor and of single calls *)

Section MoreConstructorFacts.
Import Snowflake Program.

Lemma new_timeOffset_nonzero (env : Env) (n o : option Z) :
  defaultTimeOffset env <> 0 -> timeOffset (new env n o) <> 0.
Proof.
  intros Hdef. unfold new; cbn [timeOffset].
  destruct o as [v |]; cbn [JS.falsy]; [| exact Hdef].
  destruct (Z.eqb_spec v 0); assumption.
Qed.

Lemma reachable_timeOffset_nonzero (env : Env) (now : nat -> Z)
      (w : World) (this : t) :
  defaultTimeOffset env <> 0 ->
  reachable env now w -> instance w = Some this -> timeOffset this <> 0.
Proof.
  intros Hdef Hreach. revert this.
  induction Hreach as [| w opts _ IH | w fuel id w' _ IH Hstep]; intros this Hinst.
  - discriminate Hinst.
  - rewrite step_get in Hinst. cbn [snd instance] in Hinst.
    destruct (instance w) as [s |]; cbn [get snd] in Hinst;
      injection Hinst as <-;
      [apply IH; reflexivity | apply new_timeOffset_nonzero; exact Hdef].
  - apply step_gen_generated in Hstep.
    destruct Hstep as (s & s' & tm' & Hs & Hgen & ->).
    cbn [instance] in Hinst. injection Hinst as <-.
    apply genNewID_fulfilled in Hgen. destruct Hgen as (_ & _ & -> & _).
    apply IH. exact Hs.
Qed.

End MoreConstructorFacts.

(** X6.  Decoding an identifier with the epoch offset of the generator
    that made it gives the very clock reading the identifier was made
    from (the last one the call took), as long as that reading lies less
    than 2^42 milliseconds after the offset.  The reading comes back as
    the number it is: unchanged when it is at most 2^53 in magnitude, as
    every value of [Date.now()] is.  The default epoch is assumed to be a
    date other than 1 January 1970. *)
Theorem generated_timestamp_decodes
        (env : Snowflake.Env) (now : nat -> Z) (w : Program.World)
        (this : Snowflake.t) (fuel : nat)
        (id : Z) (this' : Snowflake.t) (tm' : Snowflake.Timer) :
  Program.reachable env now w ->
  Snowflake.defaultTimeOffset env <> 0 ->
  Program.instance w = Some this ->
  Snowflake.genNewID now fuel this (Program.timer w) = JS.Fulfilled (id, this', tm') ->
  0 <= now (pred (Snowflake.reads tm')) - Snowflake.timeOffset this < 2 ^ 42 ->
  (Snowflake.reads (Program.timer w) < Snowflake.reads tm')%nat
  /\ Snowflake.getTimestampFromID env id (Some (Snowflake.timeOffset this))
     = JS.to_double (now (pred (Snowflake.reads tm')))
  /\ (Snowflake.timeOffset this = Snowflake.defaultTimeOffset env ->
      Snowflake.getTimestampFromID env id None
      = JS.to_double (now (pred (Snowflake.reads tm'))))
  /\ (Z.abs (now (pred (Snowflake.reads tm'))) <= 2 ^ 53 ->
      Snowflake.getTimestampFromID env id (Some (Snowflake.timeOffset this))
      = now (pred (Snowflake.reads tm'))
      /\ (Snowflake.timeOffset this = Snowflake.defaultTimeOffset env ->
          Snowflake.getTimestampFromID env id None
          = now (pred (Snowflake.reads tm')))).
Proof.
  intros Hreach Hdef Hinst Hgen Hrange.
  pose proof (reachable_well_formed env now w this Hreach Hinst) as Hwf.
  pose proof (reachable_timeOffset_nonzero env now w this Hdef Hreach Hinst) as Hoff.
  pose proof (genNewID_well_formed now fuel this (Program.timer w) id this' tm'
                Hwf Hgen) as [_ Hseq'].
  apply genNewID_fulfilled in Hgen.
  destruct Hgen as (-> & _ & _ & k & Hts & Hr & _).
  rewrite Hr in Hrange |- *. cbn [pred] in Hrange |- *. rewrite <- Hts in Hrange.
  destruct Hwf as [Hnode _].
  assert (Hsome : Snowflake.getTimestampFromID env
                    (Snowflake.compose (Snowflake.lastTimestamp this')
                                       (Snowflake.nodeID this)
                                       (Snowflake.lastSequence this'))
                    (Some (Snowflake.timeOffset this))
                  = JS.to_double (now (Snowflake.reads (Program.timer w) + k)%nat)).
  { rewrite getTimestampFromID_compose by assumption. cbn [JS.falsy].
    destruct (Z.eqb_spec (Snowflake.timeOffset this) 0) as [? | _];
      [contradiction |].
    rewrite Z.mod_small by exact Hrange. f_equal. lia. }
  assert (Hnone : Snowflake.timeOffset this = Snowflake.defaultTimeOffset env ->
                  Snowflake.getTimestampFromID env
                    (Snowflake.compose (Snowflake.lastTimestamp this')
                                       (Snowflake.nodeID this)
                                       (Snowflake.lastSequence this'))
                    None
                  = JS.to_double (now (Snowflake.reads (Program.timer w) + k)%nat)).
  { intros Hsame. rewrite getTimestampFromID_compose by assumption. cbn [JS.falsy].
    rewrite Z.mod_small by exact Hrange. f_equal. lia. }
  split; [lia |]. split; [exact Hsome |]. split; [exact Hnone |].
  intros Hsafe. rewrite Hsome. split.
  - apply to_double_exact. exact Hsafe.
  - intros Hsame. rewrite (Hnone Hsame). apply to_double_exact. exact Hsafe.
Qed.

Lemma generated_timestamp_decodes_witness :
  let now := Fixtures.clock_at (utc_2023 + 5) in
  let w := snd (Program.step Fixtures.env0 now (Program.Get None) Program.boot) in
  let this := Snowflake.mk 7 utc_2023 0 (-1) in
  let this' := Snowflake.mk 7 utc_2023 5 0 in
  let tm' := Snowflake.mkTimer 1 0 in
  let id := Snowflake.compose 5 7 0 in
  Program.reachable Fixtures.env0 now w
  /\ Snowflake.defaultTimeOffset Fixtures.env0 <> 0
  /\ Program.instance w = Some this
  /\ Snowflake.genNewID now 0 this (Program.timer w) = JS.Fulfilled (id, this', tm')
  /\ 0 <= now (pred (Snowflake.reads tm')) - Snowflake.timeOffset this < 2 ^ 42
  /\ Z.abs (now (pred (Snowflake.reads tm'))) <= 2 ^ 53
  /\ Snowflake.getTimestampFromID Fixtures.env0 id (Some (Snowflake.timeOffset this))
     = utc_2023 + 5.
Proof.
  intros now w this this' tm' id.
  assert (Hreach : Program.reachable Fixtures.env0 now w)
    by (apply Program.reach_get; apply Program.reach_boot).
  assert (Hdef : Snowflake.defaultTimeOffset Fixtures.env0 <> 0)
    by (vm_compute; discriminate).
  assert (Hinst : Program.instance w = Some this) by reflexivity.
  assert (Hgen : Snowflake.genNewID now 0 this (Program.timer w)
                 = JS.Fulfilled (id, this', tm')) by reflexivity.
  assert (Hrange : 0 <= now (pred (Snowflake.reads tm'))
                        - Snowflake.timeOffset this < 2 ^ 42)
    by (vm_compute; split; [discriminate | reflexivity]).
  assert (Hsafe : Z.abs (now (pred (Snowflake.reads tm'))) <= 2 ^ 53)
    by (vm_compute; discriminate).
  split; [exact Hreach |]. split; [exact Hdef |]. split; [exact Hinst |].
  split; [exact Hgen |]. split; [exact Hrange |]. split; [exact Hsafe |].
  destruct (generated_timestamp_decodes Fixtures.env0 now w this 0
              id this' tm' Hreach Hdef Hinst Hgen Hrange)
    as (_ & _ & _ & Hexact).
  exact (proj1 (Hexact Hsafe)).
Defined.

(** X7.  Supplied node identifiers that agree modulo 4096 give the same
    generator, whether they are negative or too large: nothing tells a
    node configured with 1 from a node configured with 4097. *)
Theorem nodeID_collides_modulo_4096
        (env : Snowflake.Env) (n m : Z) (o : option Z) :
  n <> 0 -> m <> 0 -> n mod 4096 = m mod 4096 ->
  Snowflake.new env (Some n) o = Snowflake.new env (Some m) o.
Proof.
  intros Hn Hm Hmod. unfold Snowflake.new; cbn [JS.falsy].
  destruct (Z.eqb_spec n 0) as [? | _]; [contradiction |].
  destruct (Z.eqb_spec m 0) as [? | _]; [contradiction |].
  rewrite !num_and_maxNodeID, Hmod. reflexivity.
Qed.

Lemma nodeID_collides_modulo_4096_witness :
  -1 <> 0 /\ 4095 <> 0 /\ (-1) mod 4096 = 4095 mod 4096
  /\ Snowflake.new Fixtures.env0 (Some (-1)) None
     = Snowflake.new Fixtures.env0 (Some 4095) None.
Proof.
  split; [lia |]. split; [lia |]. split; [reflexivity |].
  apply (nodeID_collides_modulo_4096 Fixtures.env0 (-1) 4095 None);
    [lia | lia | reflexivity].
Defined.

(** X8.  A call sleeps only when it has to: if the timestamp it reads is
    not the stored one, or the sequence has room left, it returns at once,
    having read the clock once and slept not at all.  In every case a
    completed call has read the clock once more than it has slept
    milliseconds. *)
Theorem genNewID_clock_use
        (now : nat -> Z) (this : Snowflake.t) (tm : Snowflake.Timer) :
  (now (Snowflake.reads tm) - Snowflake.timeOffset this
     <> Snowflake.lastTimestamp this
   \/ Snowflake.lastSequence this + 1 <= 1023 ->
   exists id this',
     forall fuel,
       Snowflake.genNewID now fuel this tm
       = JS.Fulfilled (id, this',
                       {| Snowflake.reads := S (Snowflake.reads tm);
                          Snowflake.slept := Snowflake.slept tm |}))
  /\ (forall fuel id this' tm',
        Snowflake.genNewID now fuel this tm = JS.Fulfilled (id, this', tm') ->
        Snowflake.slept tm <= Snowflake.slept tm'
        /\ Z.of_nat (Snowflake.reads tm')
           = Z.of_nat (Snowflake.reads tm) + 1
             + (Snowflake.slept tm' - Snowflake.slept tm)).
Proof.
  split.
  - intros Hfree.
    unfold Snowflake.genNewID, Snowflake.finish; cbn [Snowflake.readTimestamp].
    destruct (Z.eqb_spec (now (Snowflake.reads tm) - Snowflake.timeOffset this)
                         (Snowflake.lastTimestamp this)) as [Heq | Hne];
      [| eexists _, _; intros; reflexivity].
    destruct (Z.gtb_spec (Snowflake.lastSequence this + 1) Snowflake.maxSequence)
      as [Hgt | _]; [| eexists _, _; intros; reflexivity].
    change Snowflake.maxSequence with 1023 in Hgt.
    destruct Hfree; [contradiction | lia].
  - intros fuel id this' tm'.
    unfold Snowflake.genNewID, Snowflake.finish; cbn [Snowflake.readTimestamp].
    destruct (_ =? _).
    + destruct (_ >? _).
      * destruct (Snowflake.waitNextTimestamp _ _ _ _) as [[ts tm1] | |] eqn:Hw;
          try discriminate.
        intros H. injection H as _ _ <-.
        apply wait_fulfilled in Hw.
        destruct Hw as (k & _ & _ & _ & Hr & Hs & _).
        cbn [Snowflake.reads Snowflake.slept] in Hr, Hs. lia.
      * intros H. injection H as _ _ <-.
        cbn [Snowflake.reads Snowflake.slept]. lia.
    + intros H. injection H as _ _ <-.
      cbn [Snowflake.reads Snowflake.slept]. lia.
Qed.

Lemma genNewID_clock_use_witness :
  let now := Fixtures.slow_clock 3 101 in
  let this := Fixtures.exhausted in
  let tm := Snowflake.mkTimer 1 0 in
  let tm' := Snowflake.mkTimer 4 2 in
  Snowflake.genNewID now 2 this tm
    = JS.Fulfilled (Snowflake.compose 101 4090 0, Snowflake.mk 4090 1 101 0, tm')
  /\ Snowflake.slept tm <= Snowflake.slept tm'
  /\ Z.of_nat (Snowflake.reads tm')
     = Z.of_nat (Snowflake.reads tm) + 1 + (Snowflake.slept tm' - Snowflake.slept tm).
Proof.
  intros now this tm tm'.
  assert (Hgen : Snowflake.genNewID now 2 this tm
                 = JS.Fulfilled (Snowflake.compose 101 4090 0,
                                 Snowflake.mk 4090 1 101 0, tm')) by reflexivity.
  split; [exact Hgen |].
  exact (proj2 (genNewID_clock_use now this tm) 2%nat _ _ _ Hgen).
Defined.

(** ** Further properties of runs *)

Section MoreRunFacts.
Import JS Snowflake Program.

Variable env : Env.
Variable now : nat -> Z.

(** A call that finds room in the sequence, or a new timestamp, spelled
    out; [a] is the sequence the call hands out. *)
Lemma genNewID_next (fuel : nat) (this : t) (tm : Timer) (a : nat) :
  lastSequence this = Z.of_nat a - 1 ->
  (a < 1024)%nat ->
  now (reads tm) - timeOffset this = lastTimestamp this \/ a = 0%nat ->
  genNewID now fuel this tm
  = Fulfilled (compose (now (reads tm) - timeOffset this) (nodeID this) (Z.of_nat a),
               Concurrent.store this (now (reads tm) - timeOffset this) (Z.of_nat a),
               {| reads := S (reads tm); slept := slept tm |}).
Proof.
  intros Hseq Ha Hcase.
  unfold genNewID, finish, Concurrent.store; cbn [readTimestamp].
  destruct (Z.eqb_spec (now (reads tm) - timeOffset this) (lastTimestamp this))
    as [Heq | Hne].
  - destruct (Z.gtb_spec (lastSequence this + 1) maxSequence) as [Hgt | _].
    + change maxSequence with 1023 in Hgt. lia.
    + replace (lastSequence this + 1) with (Z.of_nat a) by lia. reflexivity.
  - destruct Hcase as [? | ->]; [contradiction | reflexivity].
Qed.

Lemma genNewID_moved (fuel : nat) (this : t) (tm : Timer) :
  now (reads tm) - timeOffset this <> lastTimestamp this ->
  genNewID now fuel this tm
  = Fulfilled (compose (now (reads tm) - timeOffset this) (nodeID this) 0,
               Concurrent.store this (now (reads tm) - timeOffset this) 0,
               {| reads := S (reads tm); slept := slept tm |}).
Proof.
  intros Hne. unfold genNewID, finish, Concurrent.store; cbn [readTimestamp].
  destruct (Z.eqb_spec (now (reads tm) - timeOffset this) (lastTimestamp this));
    [contradiction | reflexivity].
Qed.

(** With the sequence used up and a clock that shows the stored
    timestamp at every reading, a call stays pending whatever the bound. *)
Lemma genNewID_stuck (fuel : nat) (this : t) (tm : Timer) :
  (forall k, now k - timeOffset this = lastTimestamp this) ->
  lastSequence this + 1 > 1023 ->
  genNewID now fuel this tm = Pending.
Proof.
  intros Hsame Hfull. unfold genNewID; cbn [readTimestamp].
  rewrite Hsame, Z.eqb_refl.
  destruct (Z.gtb_spec (lastSequence this + 1) maxSequence) as [_ | Hle];
    [| change maxSequence with 1023 in Hle; lia].
  destruct (wait_runs now this fuel fuel
              {| reads := S (reads tm); slept := slept tm |}) as [Hp _].
  { intros j _. apply Hsame. }
  rewrite (Hp (le_n fuel)). reflexivity.
Qed.

Lemma run_gens_no_threw :
  forall (fuels : list nat) (w : World) (this : t),
    instance w = Some this ->
    ~ In Threw (fst (run env now (map GenNewID fuels) w)).
Proof.
  induction fuels as [| fuel fuels IH]; intros w this Hinst; [intros [] |].
  cbn [map run step]. rewrite Hinst.
  pose proof (genNewID_not_rejected now fuel this (timer w)) as Hnr.
  destruct (genNewID now fuel this (timer w)) as [[[id this'] tm'] | |];
    [| contradiction | intros [H | []]; discriminate H].
  specialize (IH {| instance := Some this'; timer := tm' |} this' eq_refl).
  destruct (run env now (map GenNewID fuels) _) as [es w''].
  cbn [fst] in *. intros [H | H]; [discriminate H | exact (IH H)].
Qed.

(** [get] on a filled slot changes nothing that [genNewID] looks at. *)
Lemma run_skips_get :
  forall (cs : list call) (w : World) (this : t),
    instance w = Some this ->
    ids (fst (run env now cs w))
    = ids (fst (run env now (filter Calls.is_GenNewID cs) w)).
Proof.
  induction cs as [| c cs IH]; intros w this Hinst; [reflexivity |].
  destruct c as [opts | fuel].
  - rewrite run_get. cbn [filter Calls.is_GenNewID ids flat_map app].
    fold (ids (fst (run env now cs
                      {| instance := snd (get env opts (instance w));
                         timer := timer w |}))).
    rewrite Hinst. cbn [get snd].
    rewrite (IH {| instance := Some this; timer := timer w |} this eq_refl).
    destruct w as [inst tm]. cbn [instance timer] in *. rewrite Hinst.
    reflexivity.
  - cbn [filter Calls.is_GenNewID run].
    destruct (step env now (GenNewID fuel) w) as [e w'] eqn:Hstep.
    destruct e as [s | id | |]; try reflexivity.
    + exfalso. exact (step_gen_not_returned env now fuel w s w' Hstep).
    + apply step_gen_generated in Hstep.
      destruct Hstep as (s & s' & tm' & _ & _ & ->).
      specialize (IH {| instance := Some s'; timer := tm' |} s' eq_refl).
      destruct (run env now cs _) as [es1 w1].
      destruct (run env now (filter Calls.is_GenNewID cs) _) as [es2 w2].
      cbn [fst] in *. cbn [ids flat_map app].
      fold (ids es1). fold (ids es2). rewrite IH. reflexivity.
Qed.

(** On a clock that shows [v] at every reading the sequences are handed
    out in order, from [a] up to 1023, and the call after that blocks. *)
Lemma frozen_run (v : Z) :
  (forall k, now k = v) ->
  forall (fuels : list nat) (a : nat) (w : World) (this : t),
    instance w = Some this ->
    lastSequence this = Z.of_nat a - 1 ->
    (a <= 1024)%nat ->
    lastTimestamp this = v - timeOffset this \/ a = 0%nat ->
    ids (fst (run env now (map GenNewID fuels) w))
    = map (fun i => compose (v - timeOffset this) (nodeID this) (Z.of_nat i))
          (seq a (Nat.min (length fuels) (1024 - a)))
    /\ ((1024 - a < length fuels)%nat ->
        In Blocked (fst (run env now (map GenNewID fuels) w))).
Proof.
  intros Hfrozen.
  induction fuels as [| fuel fuels IH]; intros a w this Hinst Hseq Ha Hcase.
  - split; [reflexivity | cbn [length]; lia].
  - cbn [map run step]. rewrite Hinst.
    destruct (Nat.eq_dec a 1024) as [-> | Hroom].
    + rewrite genNewID_stuck.
      * split; [reflexivity | intros _; left; reflexivity].
      * intros k. rewrite Hfrozen. destruct Hcase as [-> | ?]; [reflexivity | lia].
      * lia.
    + rewrite (genNewID_next fuel this (timer w) a Hseq ltac:(lia));
        [| rewrite Hfrozen; destruct Hcase as [-> | ?]; [left; reflexivity | right; assumption]].
      rewrite Hfrozen.
      set (this' := Concurrent.store this (v - timeOffset this) (Z.of_nat a)).
      specialize (IH (S a)
                     {| instance := Some this';
                        timer := {| reads := S (reads (timer w));
                                    slept := slept (timer w) |} |}
                     this' eq_refl).
      cbn [Concurrent.store lastSequence lastTimestamp timeOffset nodeID this'] in IH.
      destruct IH as [IHids IHblocked]; [lia | lia | left; reflexivity |].
      destruct (run env now (map GenNewID fuels) _) as [es w''].
      cbn [fst] in *. cbn [ids flat_map app length]. fold (ids es).
      replace (Nat.min (S (length fuels)) (1024 - a))
        with (S (Nat.min (length fuels) (1024 - S a))) by lia.
      cbn [seq map]. rewrite IHids.
      split; [reflexivity |].
      intros Hmany. right. apply IHblocked. lia.
Qed.

End MoreRunFacts.

(** X9.  Once the slot is filled, calls to [get] have no effect on the
    identifiers: a run hands out the same identifiers as the run with
    its [get] calls left out. *)
Theorem get_is_transparent
        (env : Snowflake.Env) (now : nat -> Z)
        (cs : list Program.call) (w : Program.World) (this : Snowflake.t) :
  Program.instance w = Some this ->
  Program.ids (fst (Program.run env now cs w))
  = Program.ids (fst (Program.run env now (filter Calls.is_GenNewID cs) w)).
Proof. apply run_skips_get. Qed.

Lemma get_is_transparent_witness :
  let now := Fixtures.slow_clock 3 (utc_2023 + 5) in
  let w := Program.mkWorld (Some (Snowflake.mk 4090 utc_2023 0 (-1))) Fixtures.tm0 in
  let cs := [Program.GenNewID 0;
             Program.Get (Some (Snowflake.mkOpts (Some 12) (Some 34)));
             Program.GenNewID 0] in
  Program.instance w = Some (Snowflake.mk 4090 utc_2023 0 (-1))
  /\ Program.ids (fst (Program.run Fixtures.env0 now cs w))
     = Program.ids (fst (Program.run Fixtures.env0 now
                                     (filter Calls.is_GenNewID cs) w)).
Proof.
  intros now w cs. split; [reflexivity |].
  apply (get_is_transparent Fixtures.env0 now cs w
                            (Snowflake.mk 4090 utc_2023 0 (-1))).
  reflexivity.
Defined.

(** X10.  While the clock shows one and the same time, a new generator
    hands out the sequences 0, 1, 2, ... in order, 1024 identifiers at
    most; the 1025th call cannot return, however long it polls. *)
Theorem frozen_clock_capacity
        (env : Snowflake.Env) (now : nat -> Z) (v : Z)
        (opts : option Snowflake.SnowflakeOpts) (fuels : list nat) :
  (forall k, now k = v) ->
  let this := Snowflake.new env (Snowflake.opts_nodeID opts)
                                (Snowflake.opts_timeOffset opts) in
  let es := fst (Program.run env now
                   (Program.Get opts :: map Program.GenNewID fuels)
                   Program.boot) in
  Program.ids es
  = map (fun i => Snowflake.compose (v - Snowflake.timeOffset this)
                                    (Snowflake.nodeID this) (Z.of_nat i))
        (seq 0 (Nat.min (length fuels) 1024))
  /\ ((1024 < length fuels)%nat -> In Program.Blocked es).
Proof.
  intros Hfrozen this es. unfold es. rewrite run_get.
  cbn [Program.boot Program.instance Program.timer Snowflake.get snd fst].
  cbn [Program.ids flat_map app]. fold this.
  destruct (frozen_run env now v Hfrozen fuels 0
              {| Program.instance := Some this;
                 Program.timer := {| Snowflake.reads := 0; Snowflake.slept := 0 |} |}
              this eq_refl eq_refl ltac:(lia) (or_intror eq_refl))
    as [Hids Hblocked].
  split.
  - exact Hids.
  - intros Hmany. right. apply Hblocked. lia.
Qed.

Lemma frozen_clock_capacity_witness :
  let now := Fixtures.clock_at (utc_2023 + 5) in
  let opts := Some (Snowflake.mkOpts (Some 4090) None) in
  let es := fst (Program.run Fixtures.env0 now
                   (Program.Get opts :: map Program.GenNewID [0; 0; 0]%nat)
                   Program.boot) in
  (forall k, now k = utc_2023 + 5)
  /\ Program.ids es = [25159680; 25159681; 25159682].
Proof.
  intros now opts es. split; [reflexivity |].
  exact (proj1 (frozen_clock_capacity Fixtures.env0 now (utc_2023 + 5) opts
                  [0; 0; 0]%nat (fun k => eq_refl))).
Defined.

(** X11.  Nothing guards against a clock that returns to an earlier
    time: if a new generator reads the times a, b and a again, with b
    other than a, its third identifier is its first one once more. *)
Theorem clock_regression_repeats
        (env : Snowflake.Env) (now : nat -> Z)
        (opts : option Snowflake.SnowflakeOpts) (f1 f2 f3 : nat) (a b : Z) :
  now 0%nat = a -> now 1%nat = b -> now 2%nat = a -> a <> b ->
  let this := Snowflake.new env (Snowflake.opts_nodeID opts)
                                (Snowflake.opts_timeOffset opts) in
  let id_a := Snowflake.compose (a - Snowflake.timeOffset this)
                                (Snowflake.nodeID this) 0 in
  let id_b := Snowflake.compose (b - Snowflake.timeOffset this)
                                (Snowflake.nodeID this) 0 in
  Program.ids (fst (Program.run env now
                      [Program.Get opts; Program.GenNewID f1;
                       Program.GenNewID f2; Program.GenNewID f3]
                      Program.boot))
  = [id_a; id_b; id_a]
  /\ ~ NoDup [id_a; id_b; id_a].
Proof.
  intros H0 H1 H2 Hab this id_a id_b. split.
  - rewrite run_get.
    cbn [Program.boot Program.instance Program.timer Snowflake.get snd fst].
    fold this. cbn [Program.run Program.step Program.instance Program.timer].
    rewrite (genNewID_next now f1 this _ 0 eq_refl ltac:(lia) (or_intror eq_refl)).
    cbn [Snowflake.reads Snowflake.slept Program.instance Program.timer].
    rewrite H0.
    rewrite genNewID_moved;
      cbn [Snowflake.reads Snowflake.slept Concurrent.store
           Snowflake.lastTimestamp Snowflake.timeOffset Snowflake.nodeID];
      rewrite H1; [| lia].
    cbn [Program.instance Program.timer].
    rewrite genNewID_moved;
      cbn [Snowflake.reads Snowflake.slept Concurrent.store
           Snowflake.lastTimestamp Snowflake.timeOffset Snowflake.nodeID];
      rewrite H2; [| lia].
    reflexivity.
  - intros Hnd. inversion Hnd as [| x l Hnotin _]. subst.
    apply Hnotin. right. left. reflexivity.
Qed.

Lemma clock_regression_repeats_witness :
  let now := fun k : nat => if (k =? 1)%nat then 1000 else 999 in
  now 0%nat = 999 /\ now 1%nat = 1000 /\ now 2%nat = 999 /\ 999 <> 1000
  /\ Program.ids (fst (Program.run Fixtures.env0 now
                         [Program.Get (Some (Snowflake.mkOpts (Some 1) (Some 900)));
                          Program.GenNewID 0; Program.GenNewID 0; Program.GenNewID 0]
                         Program.boot))
     = [415237120; 419431424; 415237120].
Proof.
  intros now.
  split; [reflexivity |]. split; [reflexivity |]. split; [reflexivity |].
  split; [lia |].
  exact (proj1 (clock_regression_repeats Fixtures.env0 now
                  (Some (Snowflake.mkOpts (Some 1) (Some 900))) 0 0 0 999 1000
                  eq_refl eq_refl eq_refl ltac:(lia))).
Defined.

(** ** [isMonotonic] and the test that uses it *)

Section MonotonicFacts.
Import Monotonic.

(** Past the first element, the scan compares each element with the one
    before it. *)
Lemma every_from_sorted :
  forall (rest pre : list Z) (p : Z),
    every_from above_previous ((pre ++ [p]) ++ rest) (length (pre ++ [p])) rest = true
    <-> Sorted Z.lt (p :: rest).
Proof.
  induction rest as [| v rest IH]; intros pre p.
  - split; intros _; [repeat constructor | reflexivity].
  - cbn [every_from].
    assert (Hprev : above_previous v (length (pre ++ [p])) ((pre ++ [p]) ++ v :: rest)
                    = (v >? p)).
    { unfold above_previous. rewrite length_app. cbn [length].
      replace (length pre + 1 =? 0)%nat with false
        by (symmetry; apply Nat.eqb_neq; lia).
      replace (length pre + 1 - 1)%nat with (length pre) by lia.
      rewrite <- app_assoc. cbn [app].
      rewrite nth_error_app2 by lia. rewrite Nat.sub_diag. reflexivity. }
    rewrite Hprev.
    replace ((pre ++ [p]) ++ v :: rest) with (((pre ++ [p]) ++ [v]) ++ rest)
      by (rewrite <- (app_assoc (pre ++ [p]) [v] rest); reflexivity).
    replace (S (length (pre ++ [p]))) with (length ((pre ++ [p]) ++ [v]))
      by (rewrite (length_app (pre ++ [p]) [v]); cbn [length]; lia).
    rewrite andb_true_iff, (IH (pre ++ [p]) v).
    split.
    + intros [Hgt Hs]. constructor; [exact Hs |]. constructor.
      apply Z.gtb_lt in Hgt. exact Hgt.
    + intros Hs. inversion Hs as [| x l Hs' Hhd]; subst.
      inversion Hhd; subst. split; [apply Z.gtb_lt; assumption | exact Hs'].
Qed.

Lemma isMonotonic_Sorted (l : list Z) :
  isMonotonic l = true <-> Sorted Z.lt l.
Proof.
  destruct l as [| x rest].
  - split; intros _; [constructor | reflexivity].
  - unfold isMonotonic, every. cbn [every_from].
    unfold above_previous at 1. cbn [Nat.eqb andb].
    exact (every_from_sorted rest [] x).
Qed.

Lemma isMonotonic_StronglySorted (l : list Z) :
  isMonotonic l = true <-> StronglySorted Z.lt l.
Proof.
  rewrite isMonotonic_Sorted. split.
  - apply Sorted_StronglySorted. intros x y z. apply Z.lt_trans.
  - apply StronglySorted_Sorted.
Qed.

End MonotonicFacts.

(** X12.  [isMonotonic] answers true exactly on the strictly increasing
    arrays: every element is above all the elements before it, not only
    above its neighbour.  The empty array and the arrays of one element
    are monotonic, and a monotonic array has no element twice. *)
Theorem isMonotonic_strictly_increasing (l : list Z) :
  (Monotonic.isMonotonic l = true <-> StronglySorted Z.lt l)
  /\ (Monotonic.isMonotonic l = true ->
      forall i j x y, (i < j)%nat ->
                      nth_error l i = Some x -> nth_error l j = Some y -> x < y)
  /\ (Monotonic.isMonotonic l = true -> NoDup l)
  /\ ((length l <= 1)%nat -> Monotonic.isMonotonic l = true).
Proof.
  split; [apply isMonotonic_StronglySorted |].
  split; [| split].
  - intros Hm. apply isMonotonic_StronglySorted in Hm.
    induction Hm as [| a l Hs IH Hall]; intros i j x y Hij Hi Hj.
    + destruct i; discriminate Hi.
    + destruct j as [| j]; [lia |]. cbn [nth_error] in Hj.
      destruct i as [| i].
      * cbn [nth_error] in Hi. injection Hi as <-.
        rewrite Forall_forall in Hall. apply Hall.
        apply nth_error_In with j. exact Hj.
      * cbn [nth_error] in Hi. apply (IH i j); [lia | assumption | assumption].
  - intros Hm. apply StronglySorted_lt_NoDup.
    apply isMonotonic_StronglySorted. exact Hm.
  - intros Hlen. destruct l as [| x [| y l]]; [reflexivity | reflexivity |].
    cbn [length] in Hlen. lia.
Qed.

(** The assertions of the test, for any number of calls. *)
Lemma test_body (env : Snowflake.Env) (now : nat -> Z) (fuel : nat -> nat)
      (n : nat) (expected : Z) :
  Layout.nondecreasing now ->
  expected <= Z.of_nat n ->
  let opts := Some (Snowflake.mkOpts (Some 4090) None) in
  let es := fst (Program.run env now
                   (Program.Get opts
                    :: map (fun i => Program.GenNewID (fuel i)) (seq 0 n))
                   Program.boot) in
  (existsb Test.is_blocked es = true <-> In Program.Blocked es)
  /\ (existsb Test.is_blocked es = false ->
      existsb Test.is_threw es = false
      /\ Test.assertGreaterThanOrEqual (Z.of_nat (length (Program.ids es))) expected = true
      /\ (Test.Set_size (Program.ids es) =? length (Program.ids es))%nat = true
      /\ Monotonic.isMonotonic (Program.ids es) = true).
Proof.
  intros Hmono Hn opts es.
  set (cs := Program.Get opts
             :: map (fun i => Program.GenNewID (fuel i)) (seq 0 n)) in *.
  assert (Hcs : cs = Program.Get opts :: map Program.GenNewID (map fuel (seq 0 n)))
    by (unfold cs; rewrite map_map; reflexivity).
  assert (Hblocked : existsb Test.is_blocked es = true <-> In Program.Blocked es).
  { rewrite existsb_exists. split.
    - intros (e & Hin & He). destruct e; try discriminate He. exact Hin.
    - intros Hin. exists Program.Blocked. split; [exact Hin | reflexivity]. }
  split; [exact Hblocked |]. intros Hb.
  assert (Hnb : ~ In Program.Blocked es)
    by (intros Hin; apply Hblocked in Hin; rewrite Hb in Hin; discriminate Hin).
  split.
  { destruct (existsb Test.is_threw es) eqn:Ht; [| reflexivity].
    exfalso. apply existsb_exists in Ht. destruct Ht as (e & Hin & He).
    destruct e; try discriminate He.
    unfold es in Hin. rewrite Hcs, run_get in Hin.
    destruct Hin as [Hin | Hin]; [discriminate Hin |].
    revert Hin. apply (run_gens_no_threw env now _ _
                         (Snowflake.new env (Snowflake.opts_nodeID opts)
                                            (Snowflake.opts_timeOffset opts))).
    reflexivity. }
  destruct (run_increasing env now Hmono cs Program.boot I) as [Hsorted _].
  fold es in Hsorted.
  assert (Hlen : length (Program.ids es) = n).
  { unfold es in Hnb |- *. rewrite Hcs in Hnb |- *. rewrite run_get in Hnb |- *.
    cbn [Program.ids flat_map app].
    match goal with
    | |- length (flat_map _ ?l) = _ => change (length (Program.ids l) = n)
    end.
    destruct (run_gens_count env now (map fuel (seq 0 n))
                {| Program.instance :=
                     snd (Snowflake.get env opts (Program.instance Program.boot));
                   Program.timer := Program.timer Program.boot |}
                (Snowflake.new env (Snowflake.opts_nodeID opts)
                                   (Snowflake.opts_timeOffset opts))
                eq_refl) as [Hin | Hcount].
    - exfalso. apply Hnb. right. exact Hin.
    - rewrite Hcount, length_map, length_seq. reflexivity. }
  split.
  { unfold Test.assertGreaterThanOrEqual. rewrite Hlen.
    apply negb_true_iff. apply Z.ltb_ge. lia. }
  split.
  { unfold Test.Set_size.
    rewrite nodup_fixed_point by (apply StronglySorted_lt_NoDup; exact Hsorted).
    apply Nat.eqb_refl. }
  apply isMonotonic_StronglySorted. exact Hsorted.
Qed.

(** X13.  The sequential test of the repository cannot fail under a clock
    that never goes back: either one of its 50000 calls is still waiting
    for the clock, or all three assertions hold, the count, the absence
    of duplicates and [isMonotonic]. *)
Theorem sequential_test_passes
        (env : Snowflake.Env) (now : nat -> Z) (fuel : nat -> nat) :
  Layout.nondecreasing now ->
  Test.gen_monotonic_IDs env now fuel <> Test.Failed
  /\ (Test.gen_monotonic_IDs env now fuel = Test.Hung
      <-> In Program.Blocked
             (fst (Program.run env now
                     (Program.Get (Some (Snowflake.mkOpts (Some 4090) None))
                      :: map (fun i => Program.GenNewID (fuel i))
                             (seq 0 (Z.to_nat 50000)))
                     Program.boot))).
Proof.
  intros Hmono.
  assert (Hn : 50000 <= Z.of_nat (Z.to_nat 50000)) by (rewrite Z2Nat.id; lia).
  pose proof (test_body env now fuel (Z.to_nat 50000) 50000 Hmono Hn) as Hbody.
  unfold Test.gen_monotonic_IDs.
  revert Hbody. generalize (Z.to_nat 50000). intros n Hbody.
  cbv zeta in Hbody. destruct Hbody as [Hblocked Hrest].
  destruct (existsb Test.is_blocked _) eqn:Hb.
  - split; [discriminate |]. split; [intros _; apply Hblocked; reflexivity | reflexivity].
  - destruct (Hrest eq_refl) as (-> & -> & -> & ->). cbn [andb Bool.eqb].
    split; [discriminate |]. split; [discriminate |].
    intros Hin. apply Hblocked in Hin. discriminate Hin.
Qed.

Lemma sequential_test_passes_witness :
  Layout.nondecreasing (Fixtures.slow_clock 3 (utc_2023 + 5))
  /\ Test.gen_monotonic_IDs Fixtures.env0 (Fixtures.slow_clock 3 (utc_2023 + 5))
                            (fun _ => 0%nat)
     <> Test.Failed.
Proof.
  split; [apply slow_clock_nondecreasing |].
  exact (proj1 (sequential_test_passes Fixtures.env0
                  (Fixtures.slow_clock 3 (utc_2023 + 5)) (fun _ => 0%nat)
                  (slow_clock_nondecreasing 3 (utc_2023 + 5)))).
Defined.

(** ** Calls that overlap *)

Section ConcurrentFacts.
Import JS Snowflake Concurrent.

Variable now : nat -> Z.

(** A run that returns does what a whole call without waiting does. *)
Lemma start_done (this : t) (tm : Timer) (id : Z) (this' : t) (tm' : Timer) :
  start now this tm = Done id this' tm' ->
  genNewID now 0 this tm = Fulfilled (id, this', tm').
Proof.
  unfold start, genNewID, finish, store; cbn [readTimestamp waitNextTimestamp].
  destruct (_ =? _); [destruct (_ >? _) |]; intros H;
    try discriminate H; injection H as <- <- <-; reflexivity.
Qed.

Lemma resume_done (this : t) (tm : Timer) (id : Z) (this' : t) (tm' : Timer) :
  resume now this tm = Done id this' tm' ->
  genNewID now 0 this tm = Fulfilled (id, this', tm').
Proof.
  unfold resume, genNewID, finish, store; cbn [readTimestamp].
  destruct (_ =? _); intros H;
    try discriminate H; injection H as <- <- <-; reflexivity.
Qed.

Lemma start_asleep (this : t) (tm tm' : Timer) :
  start now this tm = Asleep tm' -> (reads tm <= reads tm')%nat.
Proof.
  unfold start; cbn [readTimestamp].
  destruct (_ =? _); [destruct (_ >? _) |]; intros H;
    try discriminate H; injection H as <-; cbn [sleep reads]; lia.
Qed.

Lemma resume_asleep (this : t) (tm tm' : Timer) :
  resume now this tm = Asleep tm' -> (reads tm <= reads tm')%nat.
Proof.
  unfold resume; cbn [readTimestamp].
  destruct (_ =? _); intros H;
    try discriminate H; injection H as <-; cbn [sleep reads]; lia.
Qed.

Lemma clock_ahead_later (this : t) (tm tm' : Timer) :
  (reads tm <= reads tm')%nat ->
  Layout.clock_ahead now this tm -> Layout.clock_ahead now this tm'.
Proof. intros Hle Hahead Hused j Hj. apply Hahead; [exact Hused | lia]. Qed.

Lemma ids_ok_done (s : Sys) (c : nat) (id : Z) (this' : t) (tm' : Timer)
      (nx : nat) (sl : list nat) :
  Layout.nondecreasing now ->
  ids_ok now s ->
  genNewID now 0 (self s) (clock s) = Fulfilled (id, this', tm') ->
  ids_ok now {| self := this'; clock := tm'; next := nx; asleep := sl;
            results := (c, id) :: results s |}.
Proof.
  intros Hmono (Hwf & Hahead & Hsorted & Hbelow) Hgen.
  pose proof (genNewID_well_formed now 0 _ _ _ _ _ Hwf Hgen) as [Hwf' Hseq'].
  pose proof (genNewID_clock_ahead now 0 _ _ _ _ _ Hmono Hgen) as Hahead'.
  pose proof (genNewID_above now 0 _ _ _ _ _ Hwf Hahead Hgen) as Hup.
  pose proof (genNewID_fulfilled now 0 _ _ _ _ _ Hgen) as (Hid & Hnode & _).
  unfold ids_ok; cbn [self clock results map snd].
  assert (Holder : Forall (fun x => x < id) (map snd (results s))).
  { apply Forall_forall. intros x Hx. rewrite Forall_forall in Hbelow.
    destruct (Hbelow x Hx) as [Hused Hle]. specialize (Hup Hused). lia. }
  split; [exact Hwf' |]. split; [exact Hahead' |]. split.
  - constructor; [exact Hsorted |].
    apply Forall_forall. intros x Hx. rewrite Forall_forall in Holder.
    specialize (Holder x Hx). lia.
  - constructor.
    + split; [lia |]. rewrite Hnode, <- Hid. lia.
    + apply Forall_forall. intros x Hx. rewrite Forall_forall in Holder.
      specialize (Holder x Hx). split; [lia |]. rewrite Hnode, <- Hid. lia.
Qed.

Lemma ids_ok_asleep (s : Sys) (tm' : Timer) (nx : nat) (sl : list nat) :
  (reads (clock s) <= reads tm')%nat ->
  ids_ok now s ->
  ids_ok now {| self := self s; clock := tm'; next := nx; asleep := sl;
            results := results s |}.
Proof.
  intros Hle (Hwf & Hahead & Hsorted & Hbelow).
  unfold ids_ok; cbn [self clock results].
  split; [exact Hwf |]. split; [| split; assumption].
  exact (clock_ahead_later _ _ _ Hle Hahead).
Qed.

Lemma act_ids_ok (a : action) (s : Sys) :
  Layout.nondecreasing now -> ids_ok now s -> ids_ok now (act now a s).
Proof.
  intros Hmono Hok. destruct a as [| c]; cbn [act].
  - destruct (start now (self s) (clock s)) as [id this' tm' | tm'] eqn:Hstart.
    + apply ids_ok_done; [assumption | assumption | apply start_done; exact Hstart].
    + apply ids_ok_asleep; [exact (start_asleep _ _ _ Hstart) | exact Hok].
  - destruct (is_asleep c s); [| exact Hok].
    destruct (resume now (self s) (clock s)) as [id this' tm' | tm'] eqn:Hresume.
    + apply ids_ok_done; [assumption | assumption | apply resume_done; exact Hresume].
    + apply ids_ok_asleep; [exact (resume_asleep _ _ _ Hresume) | exact Hok].
Qed.

Lemma exec_ids_ok (acts : list action) :
  Layout.nondecreasing now ->
  forall s, ids_ok now s -> ids_ok now (exec now acts s).
Proof.
  intros Hmono. induction acts as [| a acts IH]; intros s Hok; [exact Hok |].
  cbn [exec fold_left]. apply IH. apply act_ids_ok; assumption.
Qed.

Lemma is_asleep_In (c : nat) (s : Sys) :
  is_asleep c s = true <-> In c (asleep s).
Proof.
  unfold is_asleep. rewrite existsb_exists. split.
  - intros (d & Hin & Heq). apply Nat.eqb_eq in Heq. subst. exact Hin.
  - intros Hin. exists c. split; [exact Hin | apply Nat.eqb_refl].
Qed.

Lemma act_calls_ok (a : action) (s : Sys) :
  calls_ok s -> calls_ok (act now a s).
Proof.
  intros (Hsl & Hres & Hnd & Hsep). destruct a as [| c]; cbn [act].
  - assert (Hfresh : ~ In (next s) (map fst (results s))).
    { intros Hin. rewrite Forall_forall in Hres. specialize (Hres _ Hin). lia. }
    assert (Hawake : ~ In (next s) (asleep s)).
    { intros Hin. rewrite Forall_forall in Hsl. specialize (Hsl _ Hin). lia. }
    assert (Hsl' : Forall (fun c => (c < S (next s))%nat) (asleep s))
      by (eapply Forall_impl; [| exact Hsl]; cbn; intros; lia).
    assert (Hres' : Forall (fun c => (c < S (next s))%nat) (map fst (results s)))
      by (eapply Forall_impl; [| exact Hres]; cbn; intros; lia).
    destruct (start now (self s) (clock s)) as [id this' tm' | tm'];
      unfold calls_ok; cbn [next asleep results map fst].
    + split; [exact Hsl' |]. split; [constructor; [lia | exact Hres'] |].
      split; [constructor; assumption |].
      intros c Hc [<- | Hin]; [contradiction | exact (Hsep c Hc Hin)].
    + split; [constructor; [lia | exact Hsl'] |]. split; [exact Hres' |].
      split; [exact Hnd |].
      intros c [<- | Hc] Hin; [contradiction | exact (Hsep c Hc Hin)].
  - destruct (is_asleep c s) eqn:Hc; [| repeat split; assumption].
    apply is_asleep_In in Hc.
    destruct (resume now (self s) (clock s)) as [id this' tm' | tm'];
      unfold calls_ok; cbn [next asleep results map fst];
      [| repeat split; assumption].
    split.
    { apply Forall_forall. intros d Hd. apply filter_In in Hd.
      rewrite Forall_forall in Hsl. apply Hsl. exact (proj1 Hd). }
    split.
    { constructor; [| exact Hres]. rewrite Forall_forall in Hsl. exact (Hsl c Hc). }
    split; [constructor; [exact (Hsep c Hc) | exact Hnd] |].
    intros d Hd [<- | Hin].
    + apply filter_In in Hd. destruct Hd as [_ Hne].
      rewrite Nat.eqb_refl in Hne. discriminate Hne.
    + apply filter_In in Hd. exact (Hsep d (proj1 Hd) Hin).
Qed.

Lemma exec_calls_ok (acts : list action) :
  forall s, calls_ok s -> calls_ok (exec now acts s).
Proof.
  induction acts as [| a acts IH]; intros s Hok; [exact Hok |].
  cbn [exec fold_left]. apply IH. apply act_calls_ok. exact Hok.
Qed.

Lemma StronglySorted_gt_NoDup (l : list Z) :
  StronglySorted Z.gt l -> NoDup l.
Proof.
  induction 1 as [| a l _ IH Hall]; constructor; [| exact IH].
  intros Hin. rewrite Forall_forall in Hall.
  specialize (Hall a Hin). lia.
Qed.

Lemma NoDup_snd_injective (l : list (nat * Z)) :
  NoDup (map snd l) ->
  forall c1 c2 id, In (c1, id) l -> In (c2, id) l -> c1 = c2.
Proof.
  induction l as [| [c x] l IH]; intros Hnd c1 c2 id H1 H2; [destruct H1 |].
  cbn [map snd] in Hnd. inversion Hnd as [| y l' Hnotin Hnd']; subst.
  destruct H1 as [E1 | H1], H2 as [E2 | H2].
  - congruence.
  - injection E1 as <- <-. exfalso. apply Hnotin.
    exact (in_map snd l (c2, x) H2).
  - injection E2 as <- <-. exfalso. apply Hnotin.
    exact (in_map snd l (c1, x) H1).
  - exact (IH Hnd' c1 c2 id H1 H2).
Qed.

End ConcurrentFacts.

Section ScheduleFacts.
Import JS Snowflake Concurrent.

Variable now : nat -> Z.

Lemma wake_awake (c : nat) (n : nat) (s : Sys) :
  is_asleep c s = false -> exec now (repeat (Wake c) n) s = s.
Proof.
  intros Hc. induction n as [| n IH]; [reflexivity |].
  cbn [repeat exec fold_left act]. rewrite Hc. exact IH.
Qed.

Lemma act_wake_same (this : t) (clk : Timer) (c nx : nat) (rs : list (nat * Z)) :
  now (reads clk) - timeOffset this = lastTimestamp this ->
  act now (Wake c) {| self := this; clock := clk; next := nx;
                      asleep := [c]; results := rs |}
  = {| self := this;
       clock := sleep 1 {| reads := S (reads clk); slept := slept clk |};
       next := nx; asleep := [c]; results := rs |}.
Proof.
  intros Heq. unfold act, is_asleep, resume.
  cbn [asleep existsb self clock next results readTimestamp].
  rewrite Nat.eqb_refl, Heq, Z.eqb_refl. reflexivity.
Qed.

Lemma act_wake_moved (this : t) (clk : Timer) (c nx : nat) (rs : list (nat * Z)) :
  now (reads clk) - timeOffset this <> lastTimestamp this ->
  act now (Wake c) {| self := this; clock := clk; next := nx;
                      asleep := [c]; results := rs |}
  = {| self := store this (now (reads clk) - timeOffset this) 0;
       clock := {| reads := S (reads clk); slept := slept clk |};
       next := nx; asleep := [];
       results := (c, compose (now (reads clk) - timeOffset this) (nodeID this) 0)
                  :: rs |}.
Proof.
  intros Hne. unfold act, is_asleep, resume.
  cbn [asleep existsb self clock next results readTimestamp filter].
  rewrite Nat.eqb_refl. cbn [orb negb].
  destruct (Z.eqb_spec (now (reads clk) - timeOffset this) (lastTimestamp this));
    [contradiction | reflexivity].
Qed.

(** The waiting loop of the sequential model is the call being woken
    again and again with nothing in between. *)
Lemma wait_as_wakes (this : t) (c nx : nat) (rs : list (nat * Z)) :
  forall (fuel : nat) (tm : Timer),
    match waitNextTimestamp now fuel this tm with
    | Fulfilled (ts, tm') =>
        exec now (repeat (Wake c) fuel)
             {| self := this; clock := sleep 1 tm; next := nx;
                asleep := [c]; results := rs |}
        = {| self := store this ts 0; clock := tm'; next := nx;
             asleep := []; results := (c, compose ts (nodeID this) 0) :: rs |}
    | Rejected => False
    | Pending =>
        exists clk,
          exec now (repeat (Wake c) fuel)
               {| self := this; clock := sleep 1 tm; next := nx;
                  asleep := [c]; results := rs |}
          = {| self := this; clock := clk; next := nx;
               asleep := [c]; results := rs |}
    end.
Proof.
  induction fuel as [| fuel IH]; intros tm.
  - cbn [waitNextTimestamp repeat exec fold_left]. eexists. reflexivity.
  - cbn [waitNextTimestamp readTimestamp repeat].
    change (exec now (Wake c :: repeat (Wake c) fuel)
                 {| self := this; clock := sleep 1 tm; next := nx;
                    asleep := [c]; results := rs |})
      with (exec now (repeat (Wake c) fuel)
                 (act now (Wake c)
                      {| self := this; clock := sleep 1 tm; next := nx;
                         asleep := [c]; results := rs |})).
    change (reads (sleep 1 tm)) with (reads tm).
    destruct (Z.eqb_spec (now (reads tm) - timeOffset this) (lastTimestamp this))
      as [Heq | Hne].
    + rewrite act_wake_same by exact Heq.
      exact (IH {| reads := S (reads (sleep 1 tm)); slept := slept (sleep 1 tm) |}).
    + rewrite act_wake_moved by exact Hne.
      apply wake_awake. reflexivity.
Qed.

End ScheduleFacts.

(** X14.  However calls to [genNewID] on a new generator overlap, and in
    whatever order the sleeping ones wake up, under a clock that never
    goes back every identifier returned is above all those returned
    before it.  So no identifier is returned twice, no call returns
    twice, and two different calls never get the same identifier, which
    is what the test with [Promise.all] asserts. *)
Theorem overlapping_calls_unique
        (env : Snowflake.Env) (now : nat -> Z) (n o : option Z)
        (tm : Snowflake.Timer) (acts : list Concurrent.action) :
  Layout.nondecreasing now ->
  let s := Concurrent.exec now acts
                           (Concurrent.idle (Snowflake.new env n o) tm) in
  StronglySorted Z.gt (map snd (Concurrent.results s))
  /\ NoDup (map snd (Concurrent.results s))
  /\ NoDup (map fst (Concurrent.results s))
  /\ (forall c1 c2 id1 id2,
        In (c1, id1) (Concurrent.results s) ->
        In (c2, id2) (Concurrent.results s) ->
        c1 <> c2 -> id1 <> id2).
Proof.
  intros Hmono s.
  assert (Hids : Concurrent.ids_ok now s).
  { apply exec_ids_ok; [exact Hmono |].
    unfold Concurrent.ids_ok, Concurrent.idle;
      cbn [Concurrent.self Concurrent.clock Concurrent.results map].
    split; [apply new_well_formed |]. split.
    - intros Hused. cbn [Snowflake.new Snowflake.lastSequence] in Hused. lia.
    - split; constructor. }
  assert (Hcalls : Concurrent.calls_ok s).
  { apply exec_calls_ok. unfold Concurrent.calls_ok, Concurrent.idle;
      cbn [Concurrent.asleep Concurrent.results Concurrent.next map].
    repeat split; try constructor. intros c []. }
  destruct Hids as (_ & _ & Hsorted & _).
  destruct Hcalls as (_ & _ & Hnd & _).
  pose proof (StronglySorted_gt_NoDup _ Hsorted) as Hunique.
  split; [exact Hsorted |]. split; [exact Hunique |]. split; [exact Hnd |].
  intros c1 c2 id1 id2 H1 H2 Hne Heq. subst id2. apply Hne.
  exact (NoDup_snd_injective _ Hunique c1 c2 id1 H1 H2).
Qed.

Lemma overlapping_calls_unique_witness :
  let now := Fixtures.slow_clock 2 101 in
  let s := Concurrent.exec now
             [Concurrent.Launch; Concurrent.Launch; Concurrent.Wake 0;
              Concurrent.Launch]
             (Concurrent.idle (Snowflake.new Fixtures.env0 (Some 4090) (Some 1))
                              Fixtures.tm0) in
  Layout.nondecreasing now
  /\ Concurrent.results s
     = [(2%nat, 427812864); (1%nat, 423618561); (0%nat, 423618560)]
  /\ NoDup (map snd (Concurrent.results s)).
Proof.
  intros now s. split; [apply slow_clock_nondecreasing |].
  split; [reflexivity |].
  exact (proj1 (proj2 (overlapping_calls_unique Fixtures.env0 now
                         (Some 4090) (Some 1) Fixtures.tm0
                         [Concurrent.Launch; Concurrent.Launch; Concurrent.Wake 0;
                          Concurrent.Launch]
                         (slow_clock_nondecreasing 2 101)))).
Defined.

(** X15.  A call that is awaited before anything else happens is one
    schedule among the overlapping ones: starting the call and waking it
    up to [fuel] times, with no other call in between, leaves the
    generator, the clock and the result exactly as [genNewID] with that
    bound does; while [genNewID] is pending, the call is still asleep and
    the generator untouched. *)
Theorem sequential_is_a_schedule
        (now : nat -> Z) (fuel : nat) (this : Snowflake.t) (tm : Snowflake.Timer)
        (c : nat) (rs : list (nat * Z)) :
  let s0 := {| Concurrent.self := this; Concurrent.clock := tm;
               Concurrent.next := c; Concurrent.asleep := [];
               Concurrent.results := rs |} in
  let s := Concurrent.exec now
             (Concurrent.Launch :: repeat (Concurrent.Wake c) fuel) s0 in
  match Snowflake.genNewID now fuel this tm with
  | JS.Fulfilled (id, this', tm') =>
      s = {| Concurrent.self := this'; Concurrent.clock := tm';
             Concurrent.next := S c; Concurrent.asleep := [];
             Concurrent.results := (c, id) :: rs |}
  | JS.Rejected => False
  | JS.Pending =>
      exists clk,
        s = {| Concurrent.self := this; Concurrent.clock := clk;
               Concurrent.next := S c; Concurrent.asleep := [c];
               Concurrent.results := rs |}
  end.
Proof.
  intros s0 s. unfold s, s0.
  change (Concurrent.exec now (Concurrent.Launch :: repeat (Concurrent.Wake c) fuel)
            {| Concurrent.self := this; Concurrent.clock := tm;
               Concurrent.next := c; Concurrent.asleep := [];
               Concurrent.results := rs |})
    with (Concurrent.exec now (repeat (Concurrent.Wake c) fuel)
            (Concurrent.act now Concurrent.Launch
               {| Concurrent.self := this; Concurrent.clock := tm;
                  Concurrent.next := c; Concurrent.asleep := [];
                  Concurrent.results := rs |})).
  unfold Snowflake.genNewID, Snowflake.finish, Concurrent.act, Concurrent.start.
  cbn [Concurrent.self Concurrent.clock Concurrent.next Concurrent.asleep
       Concurrent.results Snowflake.readTimestamp].
  destruct (_ =? _).
  - destruct (_ >? _).
    + pose proof (wait_as_wakes now this c (S c) rs fuel
                    {| Snowflake.reads := S (Snowflake.reads tm);
                       Snowflake.slept := Snowflake.slept tm |}) as Hwait.
      destruct (Snowflake.waitNextTimestamp now fuel this _) as [[ts tm'] | |];
        exact Hwait.
    + apply wake_awake. reflexivity.
  - apply wake_awake. reflexivity.
Qed.

(** X16.  Overlapping calls need not return identifiers in the order in
    which they were made.  When the sequence is used up, a call goes to
    sleep; a call made after it, in a later millisecond, returns at once;
    the first call, waking up later still, gets the larger identifier.
    The array of results in the order of the calls is then not
    monotonic. *)
Theorem overlapping_calls_out_of_order
        (now : nat -> Z) (this : Snowflake.t) (tm : Snowflake.Timer) :
  0 <= Snowflake.nodeID this <= 4095 ->
  Snowflake.lastSequence this + 1 > 1023 ->
  let off := Snowflake.timeOffset this in
  let t0 := now (Snowflake.reads tm) - off in
  let t1 := now (S (Snowflake.reads tm)) - off in
  let t2 := now (S (S (Snowflake.reads tm))) - off in
  t0 = Snowflake.lastTimestamp this -> t0 < t1 -> t1 < t2 ->
  let s := Concurrent.exec now
             [Concurrent.Launch; Concurrent.Launch; Concurrent.Wake 0]
             (Concurrent.idle this tm) in
  let first := Snowflake.compose t2 (Snowflake.nodeID this) 0 in
  let second := Snowflake.compose t1 (Snowflake.nodeID this) 0 in
  Concurrent.result_of 0 s = Some first
  /\ Concurrent.result_of 1 s = Some second
  /\ second < first
  /\ Monotonic.isMonotonic [first; second] = false.
Proof.
  intros Hnode Hfull off t0 t1 t2 H0 H01 H12 s first second.
  assert (Hs : s = {| Concurrent.self := Concurrent.store this t2 0;
                      Concurrent.clock :=
                        {| Snowflake.reads := S (S (S (Snowflake.reads tm)));
                           Snowflake.slept := Snowflake.slept tm + 1 |};
                      Concurrent.next := 2; Concurrent.asleep := [];
                      Concurrent.results := [(0%nat, first); (1%nat, second)] |}).
  { unfold s, Concurrent.idle, Concurrent.exec. cbn [fold_left].
    (* the first call goes to sleep *)
    unfold Concurrent.act at 3, Concurrent.start.
    cbn [Concurrent.self Concurrent.clock Concurrent.next Concurrent.asleep
         Concurrent.results Snowflake.readTimestamp].
    fold off. fold t0. rewrite H0, Z.eqb_refl.
    destruct (Z.gtb_spec (Snowflake.lastSequence this + 1) Snowflake.maxSequence)
      as [_ | Hle]; [| change Snowflake.maxSequence with 1023 in Hle; lia].
    (* the second one returns *)
    unfold Concurrent.act at 2, Concurrent.start.
    cbn [Concurrent.self Concurrent.clock Concurrent.next Concurrent.asleep
         Concurrent.results Snowflake.readTimestamp Snowflake.sleep
         Snowflake.reads Snowflake.slept].
    fold off. fold t1.
    destruct (Z.eqb_spec t1 (Snowflake.lastTimestamp this)) as [? | _]; [lia |].
    (* the first one wakes up *)
    unfold Concurrent.act, Concurrent.is_asleep, Concurrent.resume.
    cbn [Concurrent.self Concurrent.clock Concurrent.next Concurrent.asleep
         Concurrent.results Snowflake.readTimestamp Snowflake.reads
         Snowflake.slept existsb Nat.eqb orb Concurrent.store
         Snowflake.timeOffset Snowflake.lastTimestamp Snowflake.nodeID
         filter negb].
    fold off. fold t2.
    destruct (Z.eqb_spec t2 t1) as [? | _]; [lia |].
    reflexivity. }
  rewrite Hs. unfold Concurrent.result_of.
  cbn [Concurrent.results find fst snd Nat.eqb].
  split; [reflexivity |]. split; [reflexivity |].
  assert (Hlt : second < first).
  { unfold first, second. rewrite !compose_arith by lia. lia. }
  split; [exact Hlt |].
  unfold Monotonic.isMonotonic, Monotonic.every, Monotonic.above_previous.
  cbn [Monotonic.every_from Nat.eqb Nat.sub nth_error andb].
  destruct (Z.gtb_spec second first) as [Hgt | _]; [lia | reflexivity].
Qed.

Lemma overlapping_calls_out_of_order_witness :
  let now := Fixtures.slow_clock 1 100 in
  let this := Fixtures.exhausted in
  let tm := Snowflake.mkTimer 1 0 in
  let s := Concurrent.exec now
             [Concurrent.Launch; Concurrent.Launch; Concurrent.Wake 0]
             (Concurrent.idle this tm) in
  (0 <= Snowflake.nodeID this <= 4095
   /\ Snowflake.lastSequence this + 1 > 1023
   /\ now 1%nat - 1 = Snowflake.lastTimestamp this
   /\ now 1%nat - 1 < now 2%nat - 1
   /\ now 2%nat - 1 < now 3%nat - 1)
  /\ Concurrent.result_of 0 s = Some (Snowflake.compose 102 4090 0)
  /\ Concurrent.result_of 1 s = Some (Snowflake.compose 101 4090 0).
Proof.
  intros now this tm s.
  assert (Hnode : 0 <= Snowflake.nodeID this <= 4095) by (cbn; lia).
  assert (Hfull : Snowflake.lastSequence this + 1 > 1023) by reflexivity.
  assert (H0 : now 1%nat - 1 = Snowflake.lastTimestamp this) by reflexivity.
  assert (H01 : now 1%nat - 1 < now 2%nat - 1) by reflexivity.
  assert (H12 : now 2%nat - 1 < now 3%nat - 1) by reflexivity.
  split; [split; [| split; [| split; [| split]]]; assumption |].
  destruct (overlapping_calls_out_of_order now this tm Hnode Hfull H0 H01 H12)
    as (Hfirst & Hsecond & _).
  split; [exact Hfirst | exact Hsecond].
Defined.

(** ** The earlier version of the generator *)

Section LegacyFacts.
Import Legacy.

Variable now : nat -> Z.

Lemma num_and_maxSequence (x : Z) : JS.num_and x Snowflake.maxSequence = x mod 1024.
Proof.
  unfold JS.num_and. change (JS.ToInt32 Snowflake.maxSequence) with (Z.ones 10).
  rewrite Z.land_ones by lia. unfold JS.ToInt32.
  change (2 ^ 10) with 1024. change (2 ^ 31) with 2147483648.
  change (2 ^ 32) with 4294967296.
  rewrite (Z.mod_eq (x + 2147483648) 4294967296) by lia.
  set (q := (x + 2147483648) / 4294967296).
  replace (x + 2147483648 - 4294967296 * q - 2147483648)
    with (x + (- (4194304 * q)) * 1024) by lia.
  apply Z_mod_plus_full.
Qed.

(** A call that reads the stored time again: the sequence goes up by one
    modulo 1024, one reading is made, and the identifier is composed from
    that reading even when the sequence has wrapped. *)
Lemma legacy_same_time (this : t) (tm : Snowflake.Timer) :
  now (Snowflake.reads tm) - timeOffset this = lastTime this ->
  exists tm',
    genNewID now this tm
    = (Snowflake.compose (lastTime this) (nodeID this) ((sequence this + 1) mod 1024),
       {| nodeID := nodeID this; timeOffset := timeOffset this;
          lastTime := lastTime this;
          sequence := (sequence this + 1) mod 1024 |},
       tm')
    /\ Snowflake.reads tm' = S (Snowflake.reads tm).
Proof.
  intros Hsame. unfold genNewID. rewrite Hsame, Z.eqb_refl, num_and_maxSequence.
  destruct ((sequence this + 1) mod 1024 =? 0);
    eexists; (split; [reflexivity | reflexivity]).
Qed.

Lemma legacy_gens_same_time (v : Z) :
  forall (n : nat) (this : t) (tm : Snowflake.Timer),
    lastTime this = v - timeOffset this ->
    (forall k, (k < n)%nat -> now (Snowflake.reads tm + k)%nat = v) ->
    gens now n this tm
    = map (fun i => Snowflake.compose (v - timeOffset this) (nodeID this)
                                      ((sequence this + 1 + Z.of_nat i) mod 1024))
          (seq 0 n).
Proof.
  induction n as [| n IH]; intros this tm Hlast Hfrozen; [reflexivity |].
  cbn [gens].
  destruct (legacy_same_time this tm) as (tm' & Hcall & Hreads).
  { rewrite <- (Nat.add_0_r (Snowflake.reads tm)), Hfrozen by lia.
    symmetry. exact Hlast. }
  rewrite Hcall. cbn [seq map]. rewrite Z.add_0_r, Hlast. f_equal.
  rewrite IH; cbn [lastTime timeOffset nodeID sequence].
  - rewrite <- seq_shift, map_map. apply map_ext. intros i.
    f_equal. rewrite <- Z.add_assoc, Z.add_mod_idemp_l by lia.
    f_equal. lia.
  - reflexivity.
  - intros k Hk. rewrite Hreads.
    replace (S (Snowflake.reads tm) + k)%nat
      with (Snowflake.reads tm + S k)%nat by lia.
    apply Hfrozen. lia.
Qed.

End LegacyFacts.

(** X17.  The earlier version of the generator repeats itself: when the
    sequence wraps it sleeps but composes the identifier from the time it
    read before the sleep.  So when a generator that has stored the
    current millisecond makes 1025 calls that all read that millisecond,
    the last call returns the identifier of the first one again. *)
Theorem legacy_generator_repeats
        (now : nat -> Z) (this : Legacy.t) (tm : Snowflake.Timer) (v : Z) :
  Legacy.lastTime this = v - Legacy.timeOffset this ->
  (forall k, (k < 1025)%nat -> now (Snowflake.reads tm + k)%nat = v) ->
  let ids := Legacy.gens now 1025 this tm in
  nth_error ids 0
  = Some (Snowflake.compose (v - Legacy.timeOffset this) (Legacy.nodeID this)
                            ((Legacy.sequence this + 1) mod 1024))
  /\ nth_error ids 1024 = nth_error ids 0
  /\ ~ NoDup ids.
Proof.
  intros Hlast Hfrozen ids.
  assert (Hids : ids = map (fun i => Snowflake.compose
                                       (v - Legacy.timeOffset this)
                                       (Legacy.nodeID this)
                                       ((Legacy.sequence this + 1 + Z.of_nat i)
                                          mod 1024))
                           (seq 0 1025))
    by (apply legacy_gens_same_time; assumption).
  assert (H0 : nth_error ids 0
               = Some (Snowflake.compose (v - Legacy.timeOffset this)
                                         (Legacy.nodeID this)
                                         ((Legacy.sequence this + 1) mod 1024))).
  { rewrite Hids, nth_error_map, nth_error_seq.
    replace (0 <? 1025)%nat with true by reflexivity.
    cbn [option_map Nat.add Z.of_nat]. rewrite Z.add_0_r. reflexivity. }
  assert (H1024 : nth_error ids 1024 = nth_error ids 0).
  { rewrite H0, Hids, nth_error_map, nth_error_seq.
    replace (1024 <? 1025)%nat with true by reflexivity.
    cbn [option_map Nat.add]. do 2 f_equal.
    replace (Z.of_nat 1024) with (1 * 1024) by reflexivity.
    apply Z_mod_plus_full. }
  split; [exact H0 |]. split; [exact H1024 |].
  intros Hnd. rewrite H0 in H1024.
  pose proof (proj1 (NoDup_nth_error ids) Hnd 0%nat 1024%nat) as Hinj.
  assert (Hlen : length ids = 1025%nat)
    by (rewrite Hids, length_map, length_seq; reflexivity).
  assert (Habs : 0%nat = 1024%nat).
  { apply Hinj; [rewrite Hlen; lia | rewrite H0, H1024; reflexivity]. }
  discriminate Habs.
Qed.

Lemma legacy_generator_repeats_witness :
  let now := Fixtures.clock_at 1 in
  let this := Legacy.new Fixtures.env0 (Some 4090) (Some 1) in
  let ids := Legacy.gens now 1025 this Fixtures.tm0 in
  Legacy.lastTime this = 1 - Legacy.timeOffset this
  /\ (forall k, (k < 1025)%nat -> now (Snowflake.reads Fixtures.tm0 + k)%nat = 1)
  /\ nth_error ids 0 = Some (Snowflake.compose 0 4090 1)
  /\ nth_error ids 1024 = nth_error ids 0.
Proof.
  intros now this ids.
  assert (Hlast : Legacy.lastTime this = 1 - Legacy.timeOffset this) by reflexivity.
  assert (Hfrozen : forall k, (k < 1025)%nat ->
                              now (Snowflake.reads Fixtures.tm0 + k)%nat = 1)
    by (intros k _; reflexivity).
  split; [exact Hlast |]. split; [exact Hfrozen |].
  destruct (legacy_generator_repeats now this Fixtures.tm0 1 Hlast Hfrozen)
    as (H0 & H1024 & _).
  split; [exact H0 | exact H1024].
Defined.
